(** * Resource-deployment service and Azure account tree loader

    A shallow embedding of
      - [processWhenClause], [ResourceTypeService.getProvider],
        [getOkButtonText], [updateNotebookPath], [updatePathProperties],
        [getResourceTypes], [validateResourceTypes], [startDeployment],
        [startDeploymentFromWizard] and [download]
        (resource-deployment extension, resourceTypeService), and
      - [FlatAccountTreeNodeLoader.start], [getSubscriptionInfo] and
        [updateLabel] (azurecore extension, flatAccountTreeNode.ts).

    JavaScript strings are modelled as [string]: a character is a code unit
    below 256 (Latin-1), which is where [toLowerCase] and the [\s] class of
    regular expressions are defined below. *)

From Stdlib Require Import Bool Arith ZArith List Lia.
From Stdlib Require Import Strings.Ascii Strings.String Numbers.DecimalString.
From Stdlib Require Import Sorting.Permutation.
Import ListNotations.

Open Scope list_scope.
Open Scope string_scope.

(* ================================================================= *)
(** ** JavaScript string and array primitives used by the service *)

Module JS.

(** Code unit of a character. *)
Definition code (c : ascii) : nat := nat_of_ascii c.

(** [String.prototype.toLowerCase] on one Latin-1 code unit: A-Z, and
    U+00C0..U+00DE except the multiplication sign U+00D7, move up by 32. *)
Definition lower_char (c : ascii) : ascii :=
  let n := code c in
  if (((65 <=? n) && (n <=? 90))
      || ((192 <=? n) && (n <=? 222) && negb (n =? 215)))%nat
  then ascii_of_nat (n + 32)
  else c.

Fixpoint toLowerCase (s : string) : string :=
  match s with
  | EmptyString => EmptyString
  | String c r => String (lower_char c) (toLowerCase r)
  end.

(** The class [\s] of a regular expression, below 256: TAB, LF, VT, FF, CR,
    SPACE and NO-BREAK SPACE. *)
Definition is_whitespace (c : ascii) : bool :=
  let n := code c in
  (((9 <=? n) && (n <=? 13)) || (n =? 32) || (n =? 160))%nat.

(** [s.replace(/\s/g, '')]. *)
Fixpoint remove_whitespace (s : string) : string :=
  match s with
  | EmptyString => EmptyString
  | String c r =>
      if is_whitespace c then remove_whitespace r
      else String c (remove_whitespace r)
  end.

(** [s.split('&&')]: the string is scanned from the left; at each occurrence
    of the separator the piece read so far is emitted and the scan resumes
    after the separator; the rest of the string is the last piece.  [cur] is
    the piece read so far. *)
Fixpoint split_and_from (cur s : string) : list string :=
  match s with
  | EmptyString => [cur]
  | String "&" (String "&" r) => cur :: split_and_from EmptyString r
  | String c r => split_and_from (cur ++ String c EmptyString) r
  end.

Definition split_and (s : string) : list string := split_and_from EmptyString s.

(** [xs.join(sep)]. *)
Fixpoint join (sep : string) (xs : list string) : string :=
  match xs with
  | [] => EmptyString
  | [x] => x
  | x :: r => x ++ sep ++ join sep r
  end.

(** [Array.prototype.sort()] without a comparator orders strings by code
    units; equal elements are equal strings, so the result does not depend
    on the sorting algorithm.  Insertion sort is used here. *)
Fixpoint sort_insert (x : string) (l : list string) : list string :=
  match l with
  | [] => [x]
  | y :: r => if String.leb x y then x :: l else y :: sort_insert x r
  end.

Fixpoint sort (l : list string) : list string :=
  match l with
  | [] => []
  | x :: r => sort_insert x (sort r)
  end.

(** [xs.indexOf(x)]: the first index holding [x], or -1. *)
Fixpoint indexOf_from (i : Z) (xs : list string) (x : string) : Z :=
  match xs with
  | [] => (-1)%Z
  | y :: r => if String.eqb y x then i else indexOf_from (i + 1)%Z r x
  end.

Definition indexOf (xs : list string) (x : string) : Z := indexOf_from 0%Z xs x.

(** Template-literal rendering of a non-negative integer. *)
Definition number_to_string (n : nat) : string :=
  NilEmpty.string_of_uint (Nat.to_uint n).

(** Truthiness of a string value: the empty string is falsy. *)
Definition truthy (s : string) : bool := negb (String.eqb s EmptyString).

(** Truthiness of a property that may be absent. *)
Definition truthy_opt (s : option string) : bool :=
  match s with
  | None => false
  | Some v => truthy v
  end.

End JS.

(* ================================================================= *)
(** ** Clause evaluator *)

(** One entry of [selectedOptions]. *)
Record SelectedOption := mkSelected { option_name : string; option_value : string }.

(** [`${option.option}=${option.value}`]. *)
Definition format_selected (o : SelectedOption) : string :=
  option_name o ++ "=" ++ option_value o.

(** The [for ... of] loop of [processWhenClause]: false at the first clause
    that [actual] does not hold. *)
Fixpoint all_clauses_found (actual expected : list string) : bool :=
  match expected with
  | [] => true
  | whenClause :: rest =>
      if (JS.indexOf actual whenClause =? -1)%Z then false
      else all_clauses_found actual rest
  end.

Definition processWhenClause (when : option string)
                             (selectedOptions : list SelectedOption) : bool :=
  match when with
  | None => true
  | Some w =>
      if String.eqb (JS.toLowerCase w) "true" then true
      else
        let expected := JS.sort (JS.split_and (JS.remove_whitespace w)) in
        let actual := map format_selected selectedOptions in
        all_clauses_found actual expected
  end.

(** Whether the character [c] occurs in [s]. *)
Fixpoint occurs (c : ascii) (s : string) : bool :=
  match s with
  | EmptyString => false
  | String d r => Ascii.eqb c d || occurs c r
  end.

(* ================================================================= *)
(** ** Data model of the provider registry *)

(** [NotebookPathInfo]: one notebook path per platform; a field the
    contribution leaves out is [None]. *)
Record NotebookPathInfo := mkPathInfo {
  win32 : option string;
  darwin : option string;
  linux : option string
}.

(** [NotebookInfo]: an entry of a notebook array. *)
Record NotebookInfo := mkNotebookInfo { nb_path : string }.

(** The [notebook] property: [string | NotebookPathInfo | NotebookInfo[]]. *)
Inductive NotebookValue :=
| NbString (s : string)
| NbArray (l : list NotebookInfo)
| NbPathInfo (p : NotebookPathInfo).

(** An object carrying a [notebook] property (a wizard or dialog
    descriptor); [None] is a missing property. *)
Record NotebookHolder := mkHolder { notebook : option NotebookValue }.

Record ToolRequirementInfo := mkTool { tool_name : string }.

(** A contributed provider.  The variants of the [DeploymentProvider] union
    are told apart by the property they carry, so each payload is an
    optional field. *)
Record DeploymentProvider := mkProvider {
  when : option string;
  requiredTools : list ToolRequirementInfo;
  bdcWizard : option NotebookHolder;
  notebookWizard : option NotebookHolder;
  dialog : option NotebookHolder;
  provider_notebook : option NotebookValue;
  downloadUrl : option string;
  webPageUrl : option string;
  command : option string;
  azureSQLVMWizard : option NotebookHolder;
  azureSQLDBWizard : option NotebookHolder
}.

(** A provider with no payload; the examples below set one field each. *)
Definition bare_provider (w : option string) : DeploymentProvider :=
  mkProvider w [] None None None None None None None None None.

Record OptionValue := mkValue { value_name : string; value_displayName : string }.

Record ResourceTypeOption := mkOption {
  opt_name : string;
  opt_displayName : string;
  opt_values : list OptionValue
}.

Record Icon := mkIcon { icon_dark : string; icon_light : string }.

(** An entry of [okButtonText]. *)
Record OkButtonRule := mkRule { rule_when : option string; rule_value : string }.

Record ResourceType := mkResourceType {
  rt_name : string;
  rt_displayName : string;
  rt_icon : option Icon;
  rt_options : list ResourceTypeOption;
  rt_providers : list DeploymentProvider;
  rt_okButtonText : option (list OkButtonRule)
}.

Definition is_some {A} (o : option A) : bool :=
  match o with Some _ => true | None => false end.

(** Modelled from the spec: the shape-sniffing predicates [instanceOf...] of
    the interfaces module, which is not part of the sources at hand.  Each
    answers whether the object is defined and carries the variant's
    property. *)
Definition instanceOf {A} (field : DeploymentProvider -> option A)
                      (obj : option DeploymentProvider) : bool :=
  match obj with
  | None => false
  | Some p => is_some (field p)
  end.

Definition instanceOfWizardDeploymentProvider := instanceOf bdcWizard.
Definition instanceOfNotebookWizardDeploymentProvider := instanceOf notebookWizard.
Definition instanceOfDialogDeploymentProvider := instanceOf dialog.
Definition instanceOfNotebookDeploymentProvider := instanceOf provider_notebook.
Definition instanceOfDownloadDeploymentProvider := instanceOf downloadUrl.
Definition instanceOfWebPageDeploymentProvider := instanceOf webPageUrl.
Definition instanceOfCommandDeploymentProvider := instanceOf command.
Definition instanceOfAzureSQLVMDeploymentProvider := instanceOf azureSQLVMWizard.
Definition instanceOfAzureSQLDBDeploymentProvider := instanceOf azureSQLDBWizard.

(* ================================================================= *)
(** ** Rewriting notebook paths *)

Section NotebookPaths.

(** [path.join] of the host runtime. *)
Variable path_join : string -> string -> string.

(** Truthiness of the [notebook] property: a missing property and the empty
    string are falsy, arrays and objects are truthy. *)
Definition notebook_truthy (n : option NotebookValue) : bool :=
  match n with
  | None => false
  | Some (NbString s) => JS.truthy s
  | Some _ => true
  end.

(** The three [if]s of the per-platform branch, in source order.  The
    first assigns [notebook.darwin], the second assigns [notebook.darwin]
    again from [notebook.win32], and the third assigns the whole [notebook]
    property. *)
Definition update_darwin (extensionPath : string) (p : NotebookPathInfo)
  : NotebookPathInfo :=
  match darwin p with
  | Some d =>
      if JS.truthy d
      then mkPathInfo (win32 p) (Some (path_join extensionPath d)) (linux p)
      else p
  | None => p
  end.

Definition update_win32 (extensionPath : string) (p : NotebookPathInfo)
  : NotebookPathInfo :=
  match win32 p with
  | Some w =>
      if JS.truthy w
      then mkPathInfo (win32 p) (Some (path_join extensionPath w)) (linux p)
      else p
  | None => p
  end.

Definition update_linux (extensionPath : string) (p : NotebookPathInfo)
  : NotebookValue :=
  match linux p with
  | Some l =>
      if JS.truthy l then NbString (path_join extensionPath l)
      else NbPathInfo p
  | None => NbPathInfo p
  end.

Definition updateNotebookPath (objWithNotebookProperty : option NotebookHolder)
                              (extensionPath : string)
  : option NotebookHolder :=
  match objWithNotebookProperty with
  | None => None
  | Some o =>
      if notebook_truthy (notebook o) then
        match notebook o with
        | Some (NbString s) =>
            Some (mkHolder (Some (NbString (path_join extensionPath s))))
        | Some (NbArray l) =>
            Some (mkHolder (Some (NbArray
              (map (fun nb => mkNotebookInfo (path_join extensionPath (nb_path nb))) l))))
        | Some (NbPathInfo p) =>
            Some (mkHolder (Some
              (update_linux extensionPath
                 (update_win32 extensionPath (update_darwin extensionPath p)))))
        | None => Some o
        end
      else Some o
  end.

End NotebookPaths.

(* ================================================================= *)
(** ** Validation *)

Section Validation.

(** [toolsService.getToolByName]. *)
Variable Tool : Type.
Variable getToolByName : string -> option Tool.

(** [errorMessages.push(m)]. *)
Definition push (errorMessages : list string) (m : string) : list string :=
  (errorMessages ++ [m])%list.

(** An operation on [errorMessages] that only pushes keeps what is there. *)
Definition keeps (F : list string -> list string) : Prop :=
  forall msgs m, In m msgs -> In m (F msgs).

Definition validateNameDisplayName (name displayName type positionInfo : string)
                                   (errorMessages : list string) : list string :=
  let errorMessages :=
    if negb (JS.truthy name)
    then push errorMessages ("Name of the " ++ type ++ " is empty." ++ positionInfo ++ " ")
    else errorMessages in
  if negb (JS.truthy displayName)
  then push errorMessages ("Display name of the " ++ type ++ " is empty." ++ positionInfo ++ " ")
  else errorMessages.

(** [option.values[i]]; the loops below keep [i] in range. *)
Definition value_at (values : list OptionValue) (i : nat) : OptionValue :=
  nth i values (mkValue EmptyString EmptyString).

(** The test of the inner loop. *)
Definition same_name_or_displayName (a b : OptionValue) : bool :=
  String.eqb (value_name a) (value_name b)
  || String.eqb (value_displayName a) (value_displayName b).

(** The inner loop [for (j = i + 1; j < values.length; j++)]: the positions
    pushed to [dupePositions]. *)
Definition dupePositions (values : list OptionValue) (i : nat) : list nat :=
  fold_left
    (fun dupes j =>
       if same_name_or_displayName (value_at values i) (value_at values j)
       then (dupes ++ [j + 1])%list
       else dupes)
    (seq (i + 1) (List.length values - (i + 1)))
    [].

Definition duplicate_message (i : nat) (dupes : list nat) (positionInfo : string)
  : string :=
  "Option values with same name or display name are found at the following positions: "
  ++ JS.number_to_string (i + 1) ++ ", "
  ++ JS.join "," (map JS.number_to_string dupes) ++ "." ++ positionInfo ++ " ".

(** The outer loop [for (i = 0; i < values.length; i++)]. *)
Definition validateUniqueValues (values : list OptionValue) (positionInfo : string)
                                (errorMessages : list string) : list string :=
  fold_left
    (fun msgs i =>
       if JS.truthy (value_name (value_at values i))
          && JS.truthy (value_displayName (value_at values i))
       then
         let dupes := dupePositions values i in
         if negb (List.length dupes =? 0)%nat
         then push msgs (duplicate_message i dupes positionInfo)
         else msgs
       else msgs)
    (seq 0 (List.length values))
    errorMessages.

(** A [forEach] whose body uses a 1-based counter incremented at the end of
    every iteration. *)
Definition forEach_indexed {A} (body : A -> nat -> list string -> list string)
                           (xs : list A) (errorMessages : list string)
  : list string :=
  snd (fold_left (fun st x => (fst st + 1, body x (fst st) (snd st)))
                 xs (1, errorMessages)).

Definition validateResourceTypeOption (option : ResourceTypeOption)
                                      (positionInfo : string)
                                      (errorMessages : list string) : list string :=
  let errorMessages :=
    validateNameDisplayName (opt_name option) (opt_displayName option)
                            "option" positionInfo errorMessages in
  if (List.length (opt_values option) =? 0)%nat
  then push errorMessages ("Option contains no values." ++ positionInfo ++ " ")
  else
    let errorMessages :=
      forEach_indexed
        (fun optionValue optionValueIndex msgs =>
           let optionValueInfo :=
             positionInfo ++ ", option value index: "
             ++ JS.number_to_string optionValueIndex ++ " " in
           validateNameDisplayName (value_name optionValue)
                                   (value_displayName optionValue)
                                   "option value" optionValueInfo msgs)
        (opt_values option) errorMessages in
    validateUniqueValues (opt_values option) positionInfo errorMessages.

Definition recognized_provider (p : DeploymentProvider) : bool :=
  instanceOfWizardDeploymentProvider (Some p)
  || instanceOfNotebookWizardDeploymentProvider (Some p)
  || instanceOfDialogDeploymentProvider (Some p)
  || instanceOfNotebookDeploymentProvider (Some p)
  || instanceOfDownloadDeploymentProvider (Some p)
  || instanceOfWebPageDeploymentProvider (Some p)
  || instanceOfCommandDeploymentProvider (Some p)
  || instanceOfAzureSQLVMDeploymentProvider (Some p)
  || instanceOfAzureSQLDBDeploymentProvider (Some p).

Definition validateProviders (resourceType : ResourceType) (positionInfo : string)
                             (errorMessages : list string) : list string :=
  if (List.length (rt_providers resourceType) =? 0)%nat
  then push errorMessages ("No providers defined for resource type, " ++ positionInfo)
  else
    forEach_indexed
      (fun provider providerIndex msgs =>
         let providerPositionInfo :=
           positionInfo ++ ", provider index: "
           ++ JS.number_to_string providerIndex ++ " " in
         let msgs :=
           if negb (recognized_provider provider)
           then push msgs ("No deployment method defined for the provider, "
                           ++ providerPositionInfo)
           else msgs in
         fold_left
           (fun m tool =>
              if negb (is_some (getToolByName (tool_name tool)))
              then push m ("The tool is not supported: " ++ tool_name tool ++ ", "
                           ++ providerPositionInfo ++ " ")
              else m)
           (requiredTools provider) msgs)
      (rt_providers resourceType) errorMessages.

Definition icon_ok (i : option Icon) : bool :=
  match i with
  | None => false
  | Some ic => JS.truthy (icon_dark ic) && JS.truthy (icon_light ic)
  end.

Definition validateResourceType (resourceType : ResourceType) (positionInfo : string)
                                (errorMessages : list string) : list string :=
  let errorMessages :=
    validateNameDisplayName (rt_name resourceType) (rt_displayName resourceType)
                            "resource type" positionInfo errorMessages in
  let errorMessages :=
    if negb (icon_ok (rt_icon resourceType))
    then push errorMessages
           ("Icon for resource type is not specified properly. " ++ positionInfo ++ " ")
    else errorMessages in
  let errorMessages :=
    forEach_indexed
      (fun option optionIndex msgs =>
         let optionInfo :=
           positionInfo ++ ", option index: "
           ++ JS.number_to_string optionIndex ++ " " in
         validateResourceTypeOption option optionInfo msgs)
      (rt_options resourceType) errorMessages in
  validateProviders resourceType positionInfo errorMessages.

Definition validateResourceTypes (resourceTypes : list ResourceType) : list string :=
  let errorMessages : list string := [] in
  if (List.length resourceTypes =? 0)%nat
  then push errorMessages "Resource type list is empty"
  else
    forEach_indexed
      (fun resourceType resourceTypeIndex msgs =>
         validateResourceType resourceType
           ("resource type index: " ++ JS.number_to_string resourceTypeIndex) msgs)
      resourceTypes errorMessages.

End Validation.

(* ================================================================= *)
(** ** Provider selection *)

(** The loop [for (i = 0; i < providers.length; i++)] of [getProvider],
    entered at index [i] with [remaining] iterations left. *)
Fixpoint getProvider_loop (providers : list DeploymentProvider)
                          (selectedOptions : list SelectedOption)
                          (remaining i : nat) : option DeploymentProvider :=
  match remaining with
  | O => None
  | S remaining' =>
      match nth_error providers i with
      | None => None
      | Some provider =>
          if processWhenClause (when provider) selectedOptions
          then Some provider
          else getProvider_loop providers selectedOptions remaining' (i + 1)
      end
  end.

Definition getProvider (resourceType : ResourceType)
                       (selectedOptions : list SelectedOption)
  : option DeploymentProvider :=
  getProvider_loop (rt_providers resourceType) selectedOptions
                   (List.length (rt_providers resourceType)) 0.

(** Modelled from the spec: [loc.select] of the localized constants, which
    are not part of the sources at hand; the default text of the button. *)
Definition loc_select : string := "Select".

(** The [for ... of] loop over the rules of [okButtonText]; [None] when the
    loop ends without a match. *)
Fixpoint okButtonText_loop (rules : list OkButtonRule)
                           (selectedOptions : list SelectedOption)
  : option string :=
  match rules with
  | [] => None
  | possibleOption :: rest =>
      if processWhenClause (rule_when possibleOption) selectedOptions
      then Some (rule_value possibleOption)
      else okButtonText_loop rest selectedOptions
  end.

(** The declared result is [string | undefined]; [None] is [undefined]. *)
Definition getOkButtonText (resourceType : ResourceType)
                           (selectedOptions : list SelectedOption)
  : option string :=
  match rt_okButtonText resourceType with
  | Some rules =>
      match okButtonText_loop rules selectedOptions with
      | Some text => Some text
      | None => Some loc_select
      end
  | None => Some loc_select
  end.

(* ================================================================= *)
(** ** Deployment dispatch *)

(** What a dispatch does to the host: the user interface it opens or the
    host call it makes. *)
Inductive Action :=
| OpenDeployAzureSQLVMWizard (resourceType : option ResourceType)
| OpenDeployAzureSQLDBWizard (resourceType : option ResourceType)
| OpenDeployClusterWizard (wizardInfo : option NotebookHolder)
                          (resourceType : option ResourceType)
| OpenNotebookWizard (resourceType : option ResourceType)
| OpenDeploymentInputDialog (dialogInfo : option NotebookHolder)
| OpenNotebook (nb : option NotebookValue)
| StartBackgroundOperation (taskName : string) (url : string)
| ExecuteCommand (commandId : string) (args : list string).

(** [resourceType?.providers[0]]. *)
Definition first_provider (resourceType : option ResourceType)
  : option DeploymentProvider :=
  match resourceType with
  | None => None
  | Some rt => nth_error (rt_providers rt) 0
  end.

(** A property read through a provider that may be undefined. *)
Definition payload {A} (field : DeploymentProvider -> option A)
                   (provider : option DeploymentProvider) : option A :=
  match provider with
  | None => None
  | Some p => field p
  end.

Definition startDeployment (resourceType : option ResourceType) : list Action :=
  let provider := first_provider resourceType in
  if instanceOfAzureSQLVMDeploymentProvider provider then
    [OpenDeployAzureSQLVMWizard resourceType]
  else if instanceOfAzureSQLDBDeploymentProvider provider then
    [OpenDeployAzureSQLDBWizard resourceType]
  else if instanceOfWizardDeploymentProvider provider then
    [OpenDeployClusterWizard (payload bdcWizard provider) resourceType]
  else
    [OpenNotebookWizard resourceType].

Definition or_empty (s : option string) : string :=
  match s with Some v => v | None => EmptyString end.

Definition startDeploymentFromWizard (provider : DeploymentProvider)
                                     (resourceType : option ResourceType)
  : list Action :=
  if instanceOfWizardDeploymentProvider (Some provider) then
    [OpenDeployClusterWizard (bdcWizard provider) resourceType]
  else if instanceOfDialogDeploymentProvider (Some provider) then
    [OpenDeploymentInputDialog (dialog provider)]
  else if instanceOfNotebookDeploymentProvider (Some provider) then
    [OpenNotebook (provider_notebook provider)]
  else if instanceOfDownloadDeploymentProvider (Some provider) then
    let taskName :=
      "Download and launch installer, URL: " ++ or_empty (downloadUrl provider) in
    [StartBackgroundOperation taskName (or_empty (downloadUrl provider))]
  else if instanceOfWebPageDeploymentProvider (Some provider) then
    [ExecuteCommand "vscode.open" [or_empty (webPageUrl provider)]]
  else if instanceOfCommandDeploymentProvider (Some provider) then
    [ExecuteCommand (or_empty (command provider)) []]
  else
    [].

(* ================================================================= *)
(** ** Download helper *)

(** The answer of the server to a GET. *)
Record Response := mkResponse {
  statusCode : nat;
  statusMessage : string;
  location : string
}.

(** How a download settles. *)
Inductive Settled :=
| Resolved (fileName : string)
| Rejected (error : string).

(** The text of [localize('downloadError', ...)] with its two arguments
    substituted. *)
Definition downloadError (code : nat) (message : string) : string :=
  "Download failed, status code: " ++ JS.number_to_string code
  ++ ", message: " ++ message.

Section Download.

(** The host runtime: [path.extname], [path.basename], [path.join] and
    [os.homedir()]. *)
Variable path_extname : string -> string.
Variable path_basename : string -> string -> string.
Variable path_join : string -> string -> string.
Variable homedir : string.

(** The network: the response [https.get] delivers for a URL. *)
Variable https_get : string -> Response.

(** The write stream: [None] when it finishes, [Some message] when it
    raises an error. *)
Variable write_error : string -> option string.

(** The file system is the list of paths [fs.access] succeeds on. *)
Definition FileSystem := list string.

Definition exists_ (fs : FileSystem) (path : string) : bool :=
  existsb (String.eqb path) fs.

(** The loop [while (await exists(...)) { fileName = `${originalFileName}-${cnt}`; cnt++ }],
    entered with the current [fileName] and [cnt]. *)
Fixpoint probe (fuel : nat) (fs : FileSystem)
               (downloadFolder originalFileName extension fileName : string)
               (cnt : nat) : option string :=
  match fuel with
  | O => None
  | S fuel' =>
      if exists_ fs (path_join downloadFolder (fileName ++ extension))
      then probe fuel' fs downloadFolder originalFileName extension
                 (originalFileName ++ "-" ++ JS.number_to_string cnt) (cnt + 1)
      else Some fileName
  end.

(** The names the loop tries: the original name, then [name-1], [name-2],
    and so on. *)
Definition probe_name (originalFileName : string) (k : nat) : string :=
  match k with
  | O => originalFileName
  | S _ => originalFileName ++ "-" ++ JS.number_to_string k
  end.

(** The folder of the download: [Downloads] under the home directory, or the
    home directory when that folder does not exist. *)
Definition download_folder (fs : FileSystem) : string :=
  if exists_ fs (path_join homedir "Downloads")
  then path_join homedir "Downloads"
  else homedir.

(** The path tried at step [k] for [url]. *)
Definition candidate (fs : FileSystem) (url : string) (k : nat) : string :=
  path_join (download_folder fs)
            (probe_name (path_basename url (path_extname url)) k ++ path_extname url).

(** [download(url)] on a file system; the result is how the promise settles
    and the file system left behind, or [None] when the fuel does not
    suffice for the redirects and probes. *)
Fixpoint download (fuel : nat) (url : string) (fs : FileSystem)
  : option (Settled * FileSystem) :=
  match fuel with
  | O => None
  | S fuel' =>
      let response := https_get url in
      if ((statusCode response =? 301) || (statusCode response =? 302))%nat then
        download fuel' (location response) fs
      else if negb (statusCode response =? 200)%nat then
        Some (Rejected (downloadError (statusCode response) (statusMessage response)), fs)
      else
        let extension := path_extname url in
        let originalFileName := path_basename url extension in
        let downloadFolder :=
          if exists_ fs (path_join homedir "Downloads")
          then path_join homedir "Downloads"
          else homedir in
        match probe fuel' fs downloadFolder originalFileName extension
                    originalFileName 1 with
        | None => None
        | Some fileName =>
            let fileName := path_join downloadFolder (fileName ++ extension) in
            let created := (fileName :: fs)%list in
            match write_error fileName with
            | None => Some (Resolved fileName, created)
            | Some message =>
                Some (Rejected message, remove string_dec fileName created)
            end
        end
  end.

End Download.

(** A host for the examples: the path functions on plain POSIX paths and
    URLs, without normalisation. *)
Module SampleHost.

(** The part of [s] after the last [c]; [s] itself when [c] does not occur. *)
Fixpoint after_last (c : ascii) (s : string) : string :=
  match s with
  | EmptyString => EmptyString
  | String d r =>
      if occurs c r then after_last c r
      else if Ascii.eqb d c then r else String d r
  end.

Definition extname (p : string) : string :=
  match after_last "/" p with
  | String "." r => if occurs "." r then "." ++ after_last "." r else EmptyString
  | base => if occurs "." base then "." ++ after_last "." base else EmptyString
  end.

Definition basename (p ext : string) : string :=
  let base := after_last "/" p in
  let n := String.length base - String.length ext in
  if String.eqb (substring n (String.length ext) base) ext && negb (n =? 0)%nat
  then substring 0 n base
  else base.

Definition join (a b : string) : string := a ++ "/" ++ b.

Definition homedir : string := "/home/user".

(** A server with one installer and nothing else. *)
Definition https_get (url : string) : Response :=
  if String.eqb url "https://host/report.pdf" then mkResponse 200 "OK" EmptyString
  else mkResponse 404 "Not Found" EmptyString.

(** A disk on which every write finishes. *)
Definition write_error (path : string) : option string := None.

End SampleHost.

(* ================================================================= *)
(** ** Loader of the flat account tree node *)

Section Loader.

(** Tree nodes, the ordering of [nodes.sort] by label, and the message node
    shown on an error. *)
Variable TreeNode : Type.
Variable sort_by_label : list TreeNode -> list TreeNode.
Variable message_node : string -> TreeNode.

Inductive LoaderEvent := LoadingStatusChanged | NewResourcesAvailable.

(** The fields of [FlatAccountTreeNodeLoader]; [_nodes] starts undefined. *)
Record Loader := mkLoader {
  isLoading : bool;
  nodes : option (list TreeNode)
}.

(** A call of [start] that got past the guard: its local
    [newNodesAvailable], whether its interval [refreshHandle] is still set,
    and whether it has reached the end of the function. *)
Record Load := mkLoad {
  newNodesAvailable : bool;
  interval_set : bool;
  finished : bool
}.

(** The loader, the calls of [start] in flight, and the events fired so
    far. *)
Record System := mkSystem {
  loader : Loader;
  loads : list Load;
  fired : list LoaderEvent
}.

Definition initial : System := mkSystem (mkLoader false None) [] [].

(** [start()] up to its first [await]: the guard, the two assignments, the
    event and the interval. *)
Definition start (s : System) : System :=
  if isLoading (loader s) then s
  else
    mkSystem (mkLoader true (Some []))
             (loads s ++ [mkLoad false true false])%list
             (fired s ++ [LoadingStatusChanged])%list.

Fixpoint set_nth {A} (k : nat) (x : A) (l : list A) : list A :=
  match l, k with
  | [], _ => []
  | _ :: r, O => x :: r
  | y :: r, S k' => y :: set_nth k' x r
  end.

(** The continuation of load [k] after [getChildren] returned a non-empty
    [resources]: they are pushed, the list is sorted and the local flag is
    set. *)
Definition resources_arrived (k : nat) (resources : list TreeNode) (s : System)
  : System :=
  match nth_error (loads s) k, resources with
  | Some l, _ :: _ =>
      if finished l then s
      else
        mkSystem
          (mkLoader (isLoading (loader s))
                    (match nodes (loader s) with
                     | Some ns => Some (sort_by_label (ns ++ resources)%list)
                     | None => None
                     end))
          (set_nth k (mkLoad true (interval_set l) false) (loads s))
          (fired s)
  | _, _ => s
  end.

(** The end of load [k]: after the loops, or through the [catch] with the
    message of the error; then the flag is cleared and the event fired. *)
Definition finish (k : nat) (error : option string) (s : System) : System :=
  match nth_error (loads s) k with
  | Some l =>
      if finished l then s
      else
        mkSystem
          (mkLoader false
                    (match error with
                     | Some message => Some [message_node message]
                     | None => nodes (loader s)
                     end))
          (set_nth k (mkLoad (newNodesAvailable l) (interval_set l) true) (loads s))
          (fired s ++ [LoadingStatusChanged])%list
  | None => s
  end.

(** One run of the interval callback of load [k]. *)
Definition tick (k : nat) (s : System) : System :=
  match nth_error (loads s) k with
  | Some l =>
      if interval_set l then
        mkSystem (loader s)
                 (set_nth k (mkLoad false (isLoading (loader s)) (finished l))
                          (loads s))
                 (if newNodesAvailable l
                  then (fired s ++ [NewResourcesAvailable])%list
                  else fired s)
      else s
  | None => s
  end.

(** What the event loop can run next. *)
Inductive Turn :=
| CallStart
| ResourcesArrived (k : nat) (resources : list TreeNode)
| Finish (k : nat) (error : option string)
| Tick (k : nat).

Definition turn (s : System) (t : Turn) : System :=
  match t with
  | CallStart => start s
  | ResourcesArrived k rs => resources_arrived k rs s
  | Finish k e => finish k e s
  | Tick k => tick k s
  end.

Definition run (turns : list Turn) : System := fold_left turn turns initial.

(** What a load adds to the number of loads in progress. *)
Definition unfinished (l : Load) : nat := if finished l then 0 else 1.

Definition count_running (ls : list Load) : nat :=
  List.length (filter (fun l => negb (finished l)) ls).

(** The loads that passed the guard and have not reached the end. *)
Definition running (s : System) : nat := count_running (loads s).

(** The flag is set exactly while one load is between the guard and the end
    of [start]. *)
Definition flag_counts (s : System) : Prop :=
  running s = if isLoading (loader s) then 1 else 0.

End Loader.

Arguments mkLoader {TreeNode} _ _.
Arguments isLoading {TreeNode} _.
Arguments nodes {TreeNode} _.
Arguments mkSystem {TreeNode} _ _ _.
Arguments loader {TreeNode} _.
Arguments loads {TreeNode} _.
Arguments fired {TreeNode} _.
Arguments initial {TreeNode}.
Arguments start {TreeNode} _.
Arguments running {TreeNode} _.
Arguments flag_counts {TreeNode} _.
Arguments CallStart {TreeNode}.
Arguments ResourcesArrived {TreeNode} _ _.
Arguments Finish {TreeNode} _ _.
Arguments Tick {TreeNode} _.
Arguments turn {TreeNode} _ _ _ _.
Arguments run {TreeNode} _ _ _.

(* ================================================================= *)
(** ** The registry: path properties and the cache of resource types *)

(** Modelled from the spec: [instanceOfNotebookBasedDialogInfo] of the
    interfaces module, which is not part of the sources at hand; whether the
    dialog descriptor is defined and carries a [notebook] property. *)
Definition instanceOfNotebookBasedDialogInfo (d : option NotebookHolder) : bool :=
  match d with
  | None => false
  | Some h => is_some (notebook h)
  end.

Definition set_provider_notebook (p : DeploymentProvider) (n : option NotebookValue)
  : DeploymentProvider :=
  mkProvider (when p) (requiredTools p) (bdcWizard p) (notebookWizard p) (dialog p)
             n (downloadUrl p) (webPageUrl p) (command p)
             (azureSQLVMWizard p) (azureSQLDBWizard p).

Definition set_dialog (p : DeploymentProvider) (d : option NotebookHolder)
  : DeploymentProvider :=
  mkProvider (when p) (requiredTools p) (bdcWizard p) (notebookWizard p) d
             (provider_notebook p) (downloadUrl p) (webPageUrl p) (command p)
             (azureSQLVMWizard p) (azureSQLDBWizard p).

Definition set_bdcWizard (p : DeploymentProvider) (w : option NotebookHolder)
  : DeploymentProvider :=
  mkProvider (when p) (requiredTools p) w (notebookWizard p) (dialog p)
             (provider_notebook p) (downloadUrl p) (webPageUrl p) (command p)
             (azureSQLVMWizard p) (azureSQLDBWizard p).

Definition set_notebookWizard (p : DeploymentProvider) (w : option NotebookHolder)
  : DeploymentProvider :=
  mkProvider (when p) (requiredTools p) (bdcWizard p) w (dialog p)
             (provider_notebook p) (downloadUrl p) (webPageUrl p) (command p)
             (azureSQLVMWizard p) (azureSQLDBWizard p).

Definition set_azureSQLVMWizard (p : DeploymentProvider) (w : option NotebookHolder)
  : DeploymentProvider :=
  mkProvider (when p) (requiredTools p) (bdcWizard p) (notebookWizard p) (dialog p)
             (provider_notebook p) (downloadUrl p) (webPageUrl p) (command p)
             w (azureSQLDBWizard p).

Definition set_azureSQLDBWizard (p : DeploymentProvider) (w : option NotebookHolder)
  : DeploymentProvider :=
  mkProvider (when p) (requiredTools p) (bdcWizard p) (notebookWizard p) (dialog p)
             (provider_notebook p) (downloadUrl p) (webPageUrl p) (command p)
             (azureSQLVMWizard p) w.

(** The [platforms] property of a resource type: the string ['*'] or an
    array of platform names. *)
Inductive Platforms :=
| PlatformsString (s : string)
| PlatformsArray (l : list string).

(** A contributed resource type with its [platforms] property. *)
Record Contributed := mkContributed {
  ct_type : ResourceType;
  ct_platforms : Platforms
}.

(** An entry of [vscode.extensions.all]: the path of the extension and
    [packageJSON.contributes.resourceDeploymentTypes], [None] when the
    extension contributes none. *)
Record Extension := mkExtension {
  extensionPath : string;
  resourceDeploymentTypes : option (list Contributed)
}.

(** [s.includes(sub)] on strings. *)
Definition string_includes (s sub : string) : bool :=
  is_some (String.index 0 sub s).

(** The test of the platform filter. *)
Definition supports_platform (platform : string) (c : Contributed) : bool :=
  match ct_platforms c with
  | PlatformsString s => String.eqb s "*" || string_includes s platform
  | PlatformsArray l => existsb (String.eqb platform) l
  end.

Section Registry.

Variable path_join : string -> string -> string.

(** The body of the [forEach] over the providers: the first test that
    holds picks the object whose [notebook] is rewritten. *)
Definition update_provider (extensionPath : string) (provider : DeploymentProvider)
  : DeploymentProvider :=
  if instanceOfNotebookDeploymentProvider (Some provider) then
    match updateNotebookPath path_join
            (Some (mkHolder (provider_notebook provider))) extensionPath with
    | Some h => set_provider_notebook provider (notebook h)
    | None => provider
    end
  else if instanceOfDialogDeploymentProvider (Some provider)
          && instanceOfNotebookBasedDialogInfo (dialog provider) then
    set_dialog provider (updateNotebookPath path_join (dialog provider) extensionPath)
  else if is_some (bdcWizard provider) then
    set_bdcWizard provider
      (updateNotebookPath path_join (bdcWizard provider) extensionPath)
  else if is_some (notebookWizard provider) then
    set_notebookWizard provider
      (updateNotebookPath path_join (notebookWizard provider) extensionPath)
  else if is_some (azureSQLVMWizard provider) then
    set_azureSQLVMWizard provider
      (updateNotebookPath path_join (azureSQLVMWizard provider) extensionPath)
  else if is_some (azureSQLDBWizard provider) then
    set_azureSQLDBWizard provider
      (updateNotebookPath path_join (azureSQLDBWizard provider) extensionPath)
  else provider.

(** [updatePathProperties]; [None] is the [TypeError] raised by
    [resourceType.icon.dark] when the resource type has no icon. *)
Definition updatePathProperties (resourceType : ResourceType) (extensionPath : string)
  : option ResourceType :=
  match rt_icon resourceType with
  | None => None
  | Some icon =>
      Some (mkResourceType
              (rt_name resourceType) (rt_displayName resourceType)
              (Some (mkIcon (path_join extensionPath (icon_dark icon))
                            (path_join extensionPath (icon_light icon))))
              (rt_options resourceType)
              (map (update_provider extensionPath) (rt_providers resourceType))
              (rt_okButtonText resourceType))
  end.

(** The inner [forEach] of [getResourceTypes] over the resource types of one
    extension: each is rewritten and pushed to the cache.  The flag is false
    when an exception ended the loop; the cache holds what was pushed before. *)
Fixpoint load_types (extensionPath : string) (types : list Contributed)
                    (cache : list Contributed) : list Contributed * bool :=
  match types with
  | [] => (cache, true)
  | t :: rest =>
      match updatePathProperties (ct_type t) extensionPath with
      | None => (cache, false)
      | Some rt =>
          load_types extensionPath rest
                     (cache ++ [mkContributed rt (ct_platforms t)])%list
      end
  end.

(** The outer [forEach] over the extensions. *)
Fixpoint load_extensions (extensions : list Extension) (cache : list Contributed)
  : list Contributed * bool :=
  match extensions with
  | [] => (cache, true)
  | e :: rest =>
      match resourceDeploymentTypes e with
      | None => load_extensions rest cache
      | Some types =>
          match load_types (extensionPath e) types cache with
          | (cache', true) => load_extensions rest cache'
          | (cache', false) => (cache', false)
          end
      end
  end.

(** [getResourceTypes(filterByPlatform)] on the cache [_resourceTypes]: the
    cache left behind and the returned list, [None] when the call throws. *)
Definition getResourceTypes (cache : list Contributed) (extensions : list Extension)
                            (platform : string) (filterByPlatform : bool)
  : list Contributed * option (list Contributed) :=
  let loaded :=
    if (List.length cache =? 0)%nat then load_extensions extensions cache
    else (cache, true) in
  match loaded with
  | (cache', true) =>
      (cache', Some (if filterByPlatform
                     then filter (supports_platform platform) cache'
                     else cache'))
  | (cache', false) => (cache', None)
  end.

End Registry.

(* ================================================================= *)
(** ** What the validator accepts *)

Section Validity.

Variable Tool : Type.
Variable getToolByName : string -> option Tool.

Definition valid_value (v : OptionValue) : bool :=
  JS.truthy (value_name v) && JS.truthy (value_displayName v).

(** No value shares its name or its display name with a later one. *)
Fixpoint no_conflicts (values : list OptionValue) : bool :=
  match values with
  | [] => true
  | v :: rest =>
      forallb (fun w => negb (same_name_or_displayName v w)) rest
      && no_conflicts rest
  end.

Definition valid_option (o : ResourceTypeOption) : bool :=
  JS.truthy (opt_name o) && JS.truthy (opt_displayName o)
  && negb (List.length (opt_values o) =? 0)%nat
  && forallb valid_value (opt_values o)
  && no_conflicts (opt_values o).

Definition valid_provider (p : DeploymentProvider) : bool :=
  recognized_provider p
  && forallb (fun tool => is_some (getToolByName (tool_name tool))) (requiredTools p).

Definition valid_resource_type (rt : ResourceType) : bool :=
  JS.truthy (rt_name rt) && JS.truthy (rt_displayName rt)
  && icon_ok (rt_icon rt)
  && forallb valid_option (rt_options rt)
  && negb (List.length (rt_providers rt) =? 0)%nat
  && forallb valid_provider (rt_providers rt).

End Validity.

(** An operation on [errorMessages] that appends a fixed list of messages. *)
Definition appends (F : list string -> list string) : Prop :=
  forall msgs, F msgs = (msgs ++ F [])%list.

(* ================================================================= *)
(** ** Subscriptions of an account and the label of its node *)

Record Subscription := mkSubscription {
  sub_id : string;
  sub_name : string;
  sub_tenant : string
}.

(** What the body of the [try] does for one tenant: the token or the
    subscription service throws, or the service returns a list or nothing. *)
Inductive TenantAnswer :=
| TenantThrows (error : string)
| TenantReturns (subscriptions : option (list Subscription)).

Record SubscriptionInfo := mkInfo {
  info_subscriptions : list Subscription;
  info_total : nat;
  info_selected : nat
}.

(** The loop over the tenants inside the [try]: [inl] is the error thrown. *)
Fixpoint collect_subscriptions (answers : list TenantAnswer)
                               (subscriptions : list Subscription)
  : string + list Subscription :=
  match answers with
  | [] => inr subscriptions
  | TenantThrows e :: _ => inl e
  | TenantReturns r :: rest =>
      collect_subscriptions rest
        (subscriptions ++ match r with Some l => l | None => [] end)%list
  end.

(** The message of the [AzureResourceCredentialError]. *)
Definition credentialError (accountId : string) : string :=
  "Failed to get credential for account " ++ accountId
  ++ ". Please refresh the account.".

(** [getSubscriptionInfo]: [answers] are the answers of the services for the
    tenants of the account, in order, and [selectedSubscriptions] is what the
    filter service returns. *)
Definition getSubscriptionInfo (accountId : string) (answers : list TenantAnswer)
                               (selectedSubscriptions : option (list Subscription))
  : string + SubscriptionInfo :=
  match collect_subscriptions answers [] with
  | inl _ => inl (credentialError accountId)
  | inr subscriptions =>
      let total := List.length subscriptions in
      let selectedSubscriptionIds :=
        map sub_id (match selectedSubscriptions with Some l => l | None => [] end) in
      if (0 <? List.length selectedSubscriptionIds)%nat
      then inr (mkInfo
                  (filter (fun s => negb (JS.indexOf selectedSubscriptionIds (sub_id s)
                                          =? -1)%Z)
                          subscriptions)
                  total (List.length selectedSubscriptionIds))
      else inr (mkInfo subscriptions total total)
  end.

(** [updateLabel]: the new label, or the error of [getSubscriptionInfo], in
    which case the label is not assigned. *)
Definition updateLabel (displayName accountId : string) (loading : bool)
                       (answers : list TenantAnswer)
                       (selectedSubscriptions : option (list Subscription))
  : string + string :=
  match getSubscriptionInfo accountId answers selectedSubscriptions with
  | inl e => inl e
  | inr subscriptionInfo =>
      if loading then inr (displayName ++ " - Loading...")
      else if negb (info_total subscriptionInfo =? 0)%nat then
        inr (displayName ++ " (" ++ JS.number_to_string (info_selected subscriptionInfo)
             ++ "/" ++ JS.number_to_string (info_total subscriptionInfo)
             ++ " subscriptions)")
      else inr displayName
  end.

(* ================================================================= *)
(** ** Counting what the loader did *)

Definition event_eqb (a b : LoaderEvent) : bool :=
  match a, b with
  | LoadingStatusChanged, LoadingStatusChanged => true
  | NewResourcesAvailable, NewResourcesAvailable => true
  | _, _ => false
  end.

(** How often the event [e] was fired. *)
Definition count_event (e : LoaderEvent) (fired : list LoaderEvent) : nat :=
  List.length (filter (event_eqb e) fired).

(** The loads whose [newNodesAvailable] is set: a refresh is due. *)
Definition refresh_due (ls : list Load) : nat :=
  List.length (filter newNodesAvailable ls).

(** The turns in which resources arrived. *)
Definition arrivals {TreeNode} (turns : list (Turn TreeNode)) : nat :=
  List.length (filter (fun t => match t with
                                | ResourcesArrived _ _ => true
                                | _ => false
                                end) turns).

(** A server on which every URL redirects: [a] to [b] and all others to [a]. *)
Definition redirecting_server (url : string) : Response :=
  if String.eqb url "https://a" then mkResponse 301 "Moved" "https://b"
  else mkResponse 302 "Found" "https://a".

(* ================================================================= *)
(** ** What the registry holds after loading *)

Section Loaded.

Variable path_join : string -> string -> string.

(** A contributed resource type after [updatePathProperties]; one without
    an icon is left as it is (it is never pushed). *)
Definition rewrite_contributed (extensionPath : string) (t : Contributed)
  : Contributed :=
  match updatePathProperties path_join (ct_type t) extensionPath with
  | Some rt => mkContributed rt (ct_platforms t)
  | None => t
  end.

Definition has_icon (t : Contributed) : bool := is_some (rt_icon (ct_type t)).

(** The resource types an extension contributes, none when it has no
    [resourceDeploymentTypes]. *)
Definition contributed_by (e : Extension) : list Contributed :=
  match resourceDeploymentTypes e with
  | Some types => types
  | None => []
  end.

(** The contributions of all extensions, in the order of the extensions and
    then of their declaration, with the paths of each joined to the path of
    its own extension. *)
Definition all_rewritten (extensions : list Extension) : list Contributed :=
  flat_map (fun e => map (rewrite_contributed (extensionPath e)) (contributed_by e))
           extensions.

End Loaded.

(** A tools service that knows [kubectl] only. *)
Definition sample_tools (name : string) : option unit :=
  if String.eqb name "kubectl" then Some tt else None.

(** The subscriptions of all tenants, in the order of the tenants. *)
Definition all_subscriptions (answers : list TenantAnswer) : list Subscription :=
  flat_map (fun a => match a with
                     | TenantReturns (Some l) => l
                     | _ => []
                     end) answers.

(** The ids the filter service has selected. *)
Definition selected_ids (selectedSubscriptions : option (list Subscription))
  : list string :=
  map sub_id (match selectedSubscriptions with Some l => l | None => [] end).

(** An extension with two resource types, the second with a per-platform
    notebook, and one that contributes nothing. *)
Definition sample_extensions : list Extension :=
  [mkExtension "/ext/a"
     (Some [mkContributed
              (mkResourceType "sql" "SQL" (Some (mkIcon "dark.svg" "light.svg")) []
                 [mkProvider (Some "v=1") [] None None None
                             (Some (NbString "one.ipynb")) None None None None None;
                  mkProvider None [] None None None None None
                             (Some "https://host") None None None]
                 None)
              (PlatformsString "*")]);
   mkExtension "/ext/b" None].

(** * Properties *)





Example split1 : JS.split_and "a=1&&b=2" = ["a=1"; "b=2"].
Proof. reflexivity. Qed.
Example split2 : JS.split_and "a&&&b" = ["a"; "&b"].
Proof. reflexivity. Qed.
Example split3 : JS.split_and "" = [""].
Proof. reflexivity. Qed.
Example pwc1 : processWhenClause (Some "b=2 && a=1") [mkSelected "a" "1"; mkSelected "b" "2"] = true.
Proof. reflexivity. Qed.
Example pwc2 : processWhenClause (Some "a=1&&b=2") [mkSelected "a" "1"] = false.
Proof. reflexivity. Qed.
Example pwc3 : processWhenClause (Some "TrUe") [] = true.
Proof. reflexivity. Qed.
Example num1 : JS.number_to_string 0 = "0" /\ JS.number_to_string 404 = "404".
Proof. split; reflexivity. Qed.

(* ================================================================= *)
(** ** Facts about the primitives *)

Lemma indexOf_from_found (xs : list string) (x : string) (i : Z) :
  In x xs -> (i <= JS.indexOf_from i xs x)%Z.
Proof.
  revert i; induction xs as [|y r IH]; intros i Hin; simpl in *.
  - contradiction.
  - destruct (String.eqb y x) eqn:E.
    + lia.
    + destruct Hin as [->|Hin].
      * rewrite String.eqb_refl in E; discriminate.
      * specialize (IH (i + 1)%Z Hin); lia.
Qed.

Lemma indexOf_from_missing (xs : list string) (x : string) (i : Z) :
  ~ In x xs -> JS.indexOf_from i xs x = (-1)%Z.
Proof.
  revert i; induction xs as [|y r IH]; intros i Hn; simpl in *.
  - reflexivity.
  - destruct (String.eqb y x) eqn:E.
    + apply String.eqb_eq in E; subst; exfalso; apply Hn; now left.
    + apply IH; intros H; apply Hn; now right.
Qed.

Lemma indexOf_minus_one (xs : list string) (x : string) :
  (JS.indexOf xs x =? -1)%Z = true <-> ~ In x xs.
Proof.
  unfold JS.indexOf; split.
  - intros H Hin. apply Z.eqb_eq in H.
    pose proof (indexOf_from_found xs x 0 Hin); lia.
  - intros Hn. rewrite indexOf_from_missing by assumption. reflexivity.
Qed.

Lemma all_clauses_found_Forall (actual expected : list string) :
  all_clauses_found actual expected = true <->
  Forall (fun clause => In clause actual) expected.
Proof.
  induction expected as [|c r IH]; simpl.
  - split; auto.
  - destruct (JS.indexOf actual c =? -1)%Z eqn:E.
    + apply indexOf_minus_one in E. split; [discriminate|].
      intros H; inversion H; subst; contradiction.
    + assert (Hin : In c actual).
      { destruct (in_dec string_dec c actual) as [Hi|Hn]; [assumption|].
        apply indexOf_minus_one in Hn; congruence. }
      rewrite IH; split.
      * intros H; constructor; assumption.
      * intros H; inversion H; assumption.
Qed.

Lemma sort_insert_perm (x : string) (l : list string) :
  Permutation (JS.sort_insert x l) (x :: l).
Proof.
  induction l as [|y r IH]; simpl.
  - apply Permutation_refl.
  - destruct (String.leb x y).
    + apply Permutation_refl.
    + eapply perm_trans; [apply perm_skip, IH | apply perm_swap].
Qed.

Lemma sort_perm (l : list string) : Permutation (JS.sort l) l.
Proof.
  induction l as [|x r IH]; simpl.
  - constructor.
  - eapply perm_trans; [apply sort_insert_perm | apply perm_skip, IH].
Qed.

(* ================================================================= *)
(** ** The clause evaluator *)

(** C1: [processWhenClause when selected] is true exactly when [when] is
    undefined, or lower-cases to the literal [true], or every clause got by
    removing the whitespace of [when] and splitting at [&&] is one of the
    strings [option=value] formatted from the selected pairs; in every other
    case it is false. *)
Theorem processWhenClause_spec (when : option string) (selected : list SelectedOption) :
  processWhenClause when selected = true <->
     (when = None \/
      exists w, when = Some w /\
        (JS.toLowerCase w = "true" \/
         Forall (fun clause => In clause (map format_selected selected))
                (JS.split_and (JS.remove_whitespace w)))).
Proof.
  destruct when as [w|]; simpl.
  - destruct (String.eqb (JS.toLowerCase w) "true") eqn:E.
    + apply String.eqb_eq in E. split; auto.
      intros _; right; exists w; auto.
    + apply String.eqb_neq in E.
      rewrite all_clauses_found_Forall. split.
      * intros H; right; exists w; split; [reflexivity|right].
        eapply Permutation_Forall; [apply sort_perm | exact H].
      * intros [H|[w' [Hw [H|H]]]]; try discriminate;
          injection Hw as <-; [contradiction|].
        eapply Permutation_Forall; [apply Permutation_sym, sort_perm | exact H].
  - split; auto.
Qed.

(** *** Order of the clauses *)

Lemma append_assoc (a b c : string) : (a ++ b) ++ c = a ++ (b ++ c).
Proof. induction a as [|x a IH]; simpl; [reflexivity | now rewrite IH]. Qed.

Lemma append_nil_r (a : string) : a ++ "" = a.
Proof. induction a as [|x a IH]; simpl; [reflexivity | now rewrite IH]. Qed.

Lemma occurs_append (c : ascii) (a b : string) :
  occurs c (a ++ b) = occurs c a || occurs c b.
Proof.
  induction a as [|x a IH]; simpl; [reflexivity|].
  rewrite IH. apply orb_assoc.
Qed.

Lemma remove_whitespace_append (a b : string) :
  JS.remove_whitespace (a ++ b) = JS.remove_whitespace a ++ JS.remove_whitespace b.
Proof.
  induction a as [|x a IH]; simpl; [reflexivity|].
  destruct (JS.is_whitespace x); simpl; now rewrite IH.
Qed.

Lemma remove_whitespace_occurs (c : ascii) (a : string) :
  occurs c a = false -> occurs c (JS.remove_whitespace a) = false.
Proof.
  induction a as [|x a IH]; simpl; [reflexivity|].
  intros H. apply orb_false_iff in H as [H1 H2].
  destruct (JS.is_whitespace x); simpl; [auto|].
  rewrite H1; simpl; auto.
Qed.

(** A piece without [&] is read to its end. *)
Lemma split_and_from_piece (c cur : string) :
  occurs "&" c = false -> JS.split_and_from cur c = [cur ++ c].
Proof.
  revert cur; induction c as [|x c IH]; intros cur H; simpl in *.
  - now rewrite append_nil_r.
  - apply orb_false_iff in H as [H1 H2].
    assert (Hx : x <> "&"%char).
    { intros ->. discriminate. }
    replace (cur ++ String x c) with ((cur ++ String x "") ++ c)
      by (rewrite append_assoc; reflexivity).
    rewrite <- (IH (cur ++ String x "") H2).
    destruct x as [[] [] [] [] [] [] [] []]; try reflexivity.
    exfalso; apply Hx; reflexivity.
Qed.

(** A piece without [&] followed by the separator is emitted whole. *)
Lemma split_and_from_sep (c cur rest : string) :
  occurs "&" c = false ->
  JS.split_and_from cur (c ++ "&&" ++ rest)
  = (cur ++ c) :: JS.split_and_from "" rest.
Proof.
  revert cur; induction c as [|x c IH]; intros cur H; simpl in *.
  - now rewrite append_nil_r.
  - apply orb_false_iff in H as [H1 H2].
    assert (Hx : x <> "&"%char).
    { intros ->. discriminate. }
    replace (cur ++ String x c) with ((cur ++ String x "") ++ c)
      by (rewrite append_assoc; reflexivity).
    rewrite <- (IH (cur ++ String x "") H2).
    destruct x as [[] [] [] [] [] [] [] []]; try reflexivity.
    exfalso; apply Hx; reflexivity.
Qed.

(** Joining clauses that hold no [&] and splitting again gives the clauses
    back, each without its whitespace. *)
Lemma split_and_join (c : string) (cs : list string) :
  Forall (fun x => occurs "&" x = false) (c :: cs) ->
  JS.split_and (JS.remove_whitespace (JS.join "&&" (c :: cs)))
  = map JS.remove_whitespace (c :: cs).
Proof.
  revert c; induction cs as [|d cs IH]; intros c H.
  - simpl. inversion H; subst. unfold JS.split_and.
    rewrite split_and_from_piece by now apply remove_whitespace_occurs.
    reflexivity.
  - inversion H as [|? ? Hc Hrest]; subst.
    change (JS.join "&&" (c :: d :: cs)) with (c ++ "&&" ++ JS.join "&&" (d :: cs)).
    rewrite !remove_whitespace_append.
    change (JS.remove_whitespace "&&") with "&&".
    unfold JS.split_and.
    rewrite split_and_from_sep by now apply remove_whitespace_occurs.
    fold (JS.split_and (JS.remove_whitespace (JS.join "&&" (d :: cs)))).
    rewrite (IH d Hrest). reflexivity.
Qed.

Lemma toLowerCase_occurs_amp (w : string) :
  occurs "&" w = true -> occurs "&" (JS.toLowerCase w) = true.
Proof.
  induction w as [|x w IH]; cbn [occurs JS.toLowerCase]; [discriminate|].
  intros H. apply orb_true_iff in H as [H|H].
  - apply Ascii.eqb_eq in H; subst x. reflexivity.
  - rewrite (IH H). apply orb_true_r.
Qed.

Lemma join_two_occurs_amp (c d : string) (cs : list string) :
  occurs "&" (JS.join "&&" (c :: d :: cs)) = true.
Proof.
  change (JS.join "&&" (c :: d :: cs)) with (c ++ "&&" ++ JS.join "&&" (d :: cs)).
  rewrite !occurs_append. simpl. apply orb_true_r.
Qed.

Lemma join_two_not_true (c d : string) (cs : list string) :
  String.eqb (JS.toLowerCase (JS.join "&&" (c :: d :: cs))) "true" = false.
Proof.
  apply String.eqb_neq. intros E.
  pose proof (toLowerCase_occurs_amp _ (join_two_occurs_amp c d cs)) as H.
  rewrite E in H. discriminate.
Qed.

Lemma bool_eq_of_iff (a b : bool) : (a = true <-> b = true) -> a = b.
Proof.
  destruct a, b; intros [H1 H2]; try reflexivity.
  - symmetry; now apply H1.
  - now apply H2.
Qed.

(** The clauses of [cs], with at least two of them and none holding [&],
    decide the result as a conjunction. *)
Lemma processWhenClause_join (c d : string) (cs : list string)
                             (selected : list SelectedOption) :
  Forall (fun x => occurs "&" x = false) (c :: d :: cs) ->
  (processWhenClause (Some (JS.join "&&" (c :: d :: cs))) selected = true <->
   Forall (fun clause => In clause (map format_selected selected))
          (map JS.remove_whitespace (c :: d :: cs))).
Proof.
  intros H. unfold processWhenClause.
  rewrite join_two_not_true, all_clauses_found_Forall, (split_and_join c (d :: cs) H).
  split; intros F.
  - eapply Permutation_Forall; [apply sort_perm | exact F].
  - eapply Permutation_Forall; [apply Permutation_sym, sort_perm | exact F].
Qed.

(** C2, the claim as written fails: the clauses of ["b=1&&a=&"] are [b=1]
    and [a=&]; joined in the other order they read ["a=&&&b=1"], which
    splits into [a=] and [&b=1], and the two strings are evaluated
    differently under the same selection. *)
Lemma processWhenClause_order_counterexample :
  let X := [mkSelected "b" "1"; mkSelected "a" "&"] in
  JS.split_and "b=1&&a=&" = ["b=1"; "a=&"] /\
  JS.join "&&" ["b=1"; "a=&"] = "b=1&&a=&" /\
  JS.join "&&" ["a=&"; "b=1"] = "a=&&&b=1" /\
  processWhenClause (Some "b=1&&a=&") X = true /\
  processWhenClause (Some "a=&&&b=1") X = false.
Proof. repeat split; reflexivity. Qed.

(** C2, amended: when no clause holds the character [&], joining the
    clauses with [&&] in any order gives the same result, for every
    selection. *)
Theorem processWhenClause_order_independent
        (cs1 cs2 : list string) (selected : list SelectedOption) :
  Permutation cs1 cs2 ->
  Forall (fun c => occurs "&" c = false) cs1 ->
  processWhenClause (Some (JS.join "&&" cs1)) selected
  = processWhenClause (Some (JS.join "&&" cs2)) selected.
Proof.
  intros P F.
  assert (F2 : Forall (fun c => occurs "&" c = false) cs2)
    by (eapply Permutation_Forall; eassumption).
  destruct cs1 as [|c [|d cs1]].
  - apply Permutation_nil in P; subst; reflexivity.
  - apply Permutation_length_1_inv in P; subst; reflexivity.
  - destruct cs2 as [|c2 [|d2 cs2]].
    + apply Permutation_sym, Permutation_nil in P; discriminate.
    + apply Permutation_length in P; discriminate.
    + apply bool_eq_of_iff.
      rewrite (processWhenClause_join c d cs1 selected F).
      rewrite (processWhenClause_join c2 d2 cs2 selected F2).
      pose proof (Permutation_map JS.remove_whitespace P) as PM.
      split; intros H.
      * eapply Permutation_Forall; [exact PM | exact H].
      * eapply Permutation_Forall; [apply Permutation_sym, PM | exact H].
Qed.

(** The example of the specification, at the selection [a=1], [b=2]. *)
Lemma processWhenClause_order_independent_witness :
  processWhenClause (Some "a=1&&b=2") [mkSelected "a" "1"; mkSelected "b" "2"]
  = processWhenClause (Some "b=2&&a=1") [mkSelected "a" "1"; mkSelected "b" "2"].
Proof.
  apply (processWhenClause_order_independent
           ["a=1"; "b=2"] ["b=2"; "a=1"]
           [mkSelected "a" "1"; mkSelected "b" "2"]).
  - apply perm_swap.
  - repeat constructor.
Defined.

(* ================================================================= *)
(** ** Provider selection *)

Lemma getProvider_loop_none (providers : list DeploymentProvider)
      (selected : list SelectedOption) (remaining i : nat) :
  List.length providers <= i + remaining ->
  (getProvider_loop providers selected remaining i = None <->
   forall j p, i <= j -> nth_error providers j = Some p ->
               processWhenClause (when p) selected = false).
Proof.
  revert i; induction remaining as [|r IH]; intros i Hlen; simpl.
  - split; auto. intros _ j p Hj Hp.
    assert (j < List.length providers) by (apply nth_error_Some; congruence). lia.
  - destruct (nth_error providers i) as [p|] eqn:E.
    + destruct (processWhenClause (when p) selected) eqn:W.
      * split; [discriminate|]. intros H. specialize (H i p (le_n _) E). congruence.
      * rewrite IH by lia. split; intros H j q Hj Hq.
        -- destruct (Nat.eq_dec j i) as [->|Hne]; [congruence|].
           apply (H j q); [lia | assumption].
        -- apply (H j q); [lia | assumption].
    + split; auto. intros _ j p Hj Hp.
      apply nth_error_None in E.
      assert (j < List.length providers) by (apply nth_error_Some; congruence). lia.
Qed.

Lemma getProvider_loop_some (providers : list DeploymentProvider)
      (selected : list SelectedOption) (remaining i : nat) (p : DeploymentProvider) :
  getProvider_loop providers selected remaining i = Some p ->
  exists k, i <= k /\ nth_error providers k = Some p /\
            processWhenClause (when p) selected = true /\
            forall j q, i <= j < k -> nth_error providers j = Some q ->
                        processWhenClause (when q) selected = false.
Proof.
  revert i; induction remaining as [|r IH]; intros i; simpl; [discriminate|].
  destruct (nth_error providers i) as [q|] eqn:E; [|discriminate].
  destruct (processWhenClause (when q) selected) eqn:W.
  - intros [= <-]. exists i. repeat split; auto. intros j q' Hj; lia.
  - intros H. destruct (IH _ H) as (k & Hk & Hn & Hw & Hbefore).
    exists k. repeat split; auto; [lia|].
    intros j q' Hj Hq'. destruct (Nat.eq_dec j i) as [->|Hne]; [congruence|].
    apply (Hbefore j q'); [lia | assumption].
Qed.

(** C3: [getProvider] walks the providers in declared order and returns the
    first whose [when] clause [processWhenClause] accepts under the selected
    options: a returned provider stands at an index [k], is accepted, and
    every provider before [k] is rejected, so of two accepted providers the
    earlier is returned; the result is undefined exactly when every
    provider is rejected. *)
Theorem getProvider_first_match (resourceType : ResourceType)
                                (selected : list SelectedOption) :
  (getProvider resourceType selected = None <->
   forall p, In p (rt_providers resourceType) ->
             processWhenClause (when p) selected = false)
  /\
  (forall p, getProvider resourceType selected = Some p ->
     exists k, nth_error (rt_providers resourceType) k = Some p /\
               processWhenClause (when p) selected = true /\
               forall j q, j < k -> nth_error (rt_providers resourceType) j = Some q ->
                           processWhenClause (when q) selected = false).
Proof.
  unfold getProvider. split.
  - rewrite getProvider_loop_none by lia. split.
    + intros H p Hin. apply In_nth_error in Hin as [j Hj]. apply (H j p); [lia|exact Hj].
    + intros H j p _ Hj. apply H. eapply nth_error_In; eassumption.
  - intros p H. apply getProvider_loop_some in H as (k & _ & Hn & Hw & Hb).
    exists k. repeat split; auto. intros j q Hj. apply Hb; lia.
Qed.

(** The fixture of the specification: of two providers that are always
    accepted, the first is chosen. *)
Example getProvider_two_always_true (selected : list SelectedOption) :
  getProvider
    (mkResourceType "r" "R" None []
       [mkProvider (Some "true") [] None None None None None (Some "https://a") None None None;
        mkProvider None [] None None None None None None (Some "cmd") None None]
       None)
    selected
  = Some (mkProvider (Some "true") [] None None None None None (Some "https://a") None None None).
Proof. reflexivity. Qed.

(** C10: [getOkButtonText] always returns a string, never [undefined]; with
    no [okButtonText] rules, or with no rule whose [when] clause is accepted
    under the selected options, the string is the default [Select]. *)
Theorem getOkButtonText_defined (resourceType : ResourceType)
                                (selected : list SelectedOption) :
  (exists text, getOkButtonText resourceType selected = Some text)
  /\
  (rt_okButtonText resourceType = None ->
   getOkButtonText resourceType selected = Some "Select")
  /\
  (forall rules, rt_okButtonText resourceType = Some rules ->
     (forall r, In r rules -> processWhenClause (rule_when r) selected = false) ->
     getOkButtonText resourceType selected = Some "Select").
Proof.
  unfold getOkButtonText. repeat split.
  - destruct (rt_okButtonText resourceType) as [rules|]; [|eauto].
    destruct (okButtonText_loop rules selected); eauto.
  - intros ->. reflexivity.
  - intros rules -> H.
    assert (E : okButtonText_loop rules selected = None).
    { induction rules as [|r rs IH]; simpl; [reflexivity|].
      rewrite (H r (or_introl eq_refl)). apply IH.
      intros r' Hr'. apply H. now right. }
    rewrite E. reflexivity.
Qed.

(** An instance with a rule that is not accepted. *)
Lemma getOkButtonText_defined_witness :
  getOkButtonText
    (mkResourceType "r" "R" None [] [] (Some [mkRule (Some "a=1") "Deploy"]))
    [mkSelected "a" "2"] = Some "Select".
Proof.
  refine (proj2 (proj2 (getOkButtonText_defined
           (mkResourceType "r" "R" None [] [] (Some [mkRule (Some "a=1") "Deploy"]))
           [mkSelected "a" "2"])) [mkRule (Some "a=1") "Deploy"] eq_refl _).
  intros r [<-|[]]. reflexivity.
Defined.

(* ================================================================= *)
(** ** Rewriting notebook paths *)

Section NotebookPathFacts.

Variable path_join : string -> string -> string.

(** A per-platform object that only sets [darwin] is rewritten in place. *)
Lemma updateNotebookPath_darwin_only (extensionPath d : string) :
  JS.truthy d = true ->
  updateNotebookPath path_join
    (Some (mkHolder (Some (NbPathInfo (mkPathInfo None (Some d) None))))) extensionPath
  = Some (mkHolder (Some (NbPathInfo
            (mkPathInfo None (Some (path_join extensionPath d)) None)))).
Proof.
  intros H. unfold updateNotebookPath, update_darwin; simpl. rewrite H. reflexivity.
Qed.

(** C4, what the code does on a per-platform object: with [darwin] and
    [win32] set, [darwin] ends up as the joined [win32] value and [win32]
    keeps its relative value; with [linux] set, the [notebook] property is
    no longer an object but the joined [linux] path as a string. *)
Theorem updateNotebookPath_platform_object (extensionPath : string) :
  updateNotebookPath path_join
    (Some (mkHolder (Some (NbPathInfo
       (mkPathInfo (Some "win.ipynb") (Some "mac.ipynb") None)))))
    extensionPath
  = Some (mkHolder (Some (NbPathInfo
       (mkPathInfo (Some "win.ipynb")
                   (Some (path_join extensionPath "win.ipynb")) None))))
  /\
  updateNotebookPath path_join
    (Some (mkHolder (Some (NbPathInfo
       (mkPathInfo (Some "win.ipynb") (Some "mac.ipynb") (Some "linux.ipynb"))))))
    extensionPath
  = Some (mkHolder (Some (NbString (path_join extensionPath "linux.ipynb")))).
Proof. split; reflexivity. Qed.

End NotebookPathFacts.

(* ================================================================= *)
(** ** Deployment dispatch *)

(** C5, the claim as written fails: [startDeploymentFromWizard], which is
    handed the provider together with the resource type, opens nothing for
    a provider that carries [azureSQLVMWizard], nor for one that carries
    [azureSQLDBWizard]; and [startDeployment], which is handed the resource
    type alone, looks at its first provider only. *)
Lemma startDeploymentFromWizard_azure_counterexample :
  instanceOfAzureSQLVMDeploymentProvider
    (Some (mkProvider None [] None None None None None None None
                      (Some (mkHolder None)) None)) = true
  /\
  startDeploymentFromWizard
    (mkProvider None [] None None None None None None None (Some (mkHolder None)) None)
    (Some (mkResourceType "sql-vm" "SQL VM" None [] [] None)) = []
  /\
  instanceOfAzureSQLDBDeploymentProvider
    (Some (mkProvider None [] None None None None None None None
                      None (Some (mkHolder None)))) = true
  /\
  startDeploymentFromWizard
    (mkProvider None [] None None None None None None None None (Some (mkHolder None)))
    (Some (mkResourceType "sql-db" "SQL DB" None [] [] None)) = []
  /\
  startDeployment
    (Some (mkResourceType "sql-vm" "SQL VM" None []
             [mkProvider None [] None None None None None None (Some "cmd") None None;
              mkProvider None [] None None None None None None None
                         (Some (mkHolder None)) None] None))
  = [OpenNotebookWizard
       (Some (mkResourceType "sql-vm" "SQL VM" None []
                [mkProvider None [] None None None None None None (Some "cmd") None None;
                 mkProvider None [] None None None None None None None
                            (Some (mkHolder None)) None] None))].
Proof. repeat split; reflexivity. Qed.

(** C5, amended: [startDeployment] opens the Azure SQL VM wizard on the
    resource type when the first provider of the resource type carries
    [azureSQLVMWizard], and the Azure SQL DB wizard when it carries
    [azureSQLDBWizard] and not [azureSQLVMWizard]; and
    [startDeploymentFromWizard] does nothing with a provider that carries
    none of the payloads it dispatches on, whatever resource type comes
    with it. *)
Theorem startDeployment_azure_wizards :
  (forall (resourceType : ResourceType) (provider : DeploymentProvider),
     nth_error (rt_providers resourceType) 0 = Some provider ->
     instanceOfAzureSQLVMDeploymentProvider (Some provider) = true ->
     startDeployment (Some resourceType)
     = [OpenDeployAzureSQLVMWizard (Some resourceType)])
  /\
  (forall (resourceType : ResourceType) (provider : DeploymentProvider),
     nth_error (rt_providers resourceType) 0 = Some provider ->
     instanceOfAzureSQLVMDeploymentProvider (Some provider) = false ->
     instanceOfAzureSQLDBDeploymentProvider (Some provider) = true ->
     startDeployment (Some resourceType)
     = [OpenDeployAzureSQLDBWizard (Some resourceType)])
  /\
  (forall (provider : DeploymentProvider) (resourceType : option ResourceType),
     bdcWizard provider = None -> dialog provider = None ->
     provider_notebook provider = None -> downloadUrl provider = None ->
     webPageUrl provider = None -> command provider = None ->
     startDeploymentFromWizard provider resourceType = []).
Proof.
  repeat split.
  - intros rt p H0. unfold startDeployment, first_provider. rewrite H0.
    intros ->. reflexivity.
  - intros rt p H0. unfold startDeployment, first_provider. rewrite H0.
    intros -> ->. reflexivity.
  - intros p rt H1 H2 H3 H4 H5 H6. unfold startDeploymentFromWizard.
    unfold instanceOfWizardDeploymentProvider, instanceOfDialogDeploymentProvider,
      instanceOfNotebookDeploymentProvider, instanceOfDownloadDeploymentProvider,
      instanceOfWebPageDeploymentProvider, instanceOfCommandDeploymentProvider,
      instanceOf.
    rewrite H1, H2, H3, H4, H5, H6. reflexivity.
Qed.

(** A resource type whose only provider is the Azure SQL VM wizard. *)
Lemma startDeployment_azure_wizards_witness :
  startDeployment
    (Some (mkResourceType "sql-vm" "SQL VM" None []
             [mkProvider None [] None None None None None None None
                         (Some (mkHolder None)) None] None))
  = [OpenDeployAzureSQLVMWizard
       (Some (mkResourceType "sql-vm" "SQL VM" None []
                [mkProvider None [] None None None None None None None
                            (Some (mkHolder None)) None] None))].
Proof.
  exact (proj1 startDeployment_azure_wizards
           (mkResourceType "sql-vm" "SQL VM" None []
              [mkProvider None [] None None None None None None None
                          (Some (mkHolder None)) None] None)
           (mkProvider None [] None None None None None None None
                       (Some (mkHolder None)) None)
           eq_refl eq_refl).
Defined.

(* ================================================================= *)
(** ** Download helper *)

Section DownloadFacts.

Variable path_extname : string -> string.
Variable path_basename : string -> string -> string.
Variable path_join : string -> string -> string.
Variable homedir : string.
Variable https_get : string -> Response.
Variable write_error : string -> option string.

Local Notation "'download_'" :=
  (download path_extname path_basename path_join homedir https_get write_error).
Local Notation "'candidate_'" :=
  (candidate path_extname path_basename path_join homedir).

(** C7: on a response whose status is none of 200, 301 and 302 the download
    is rejected with the message that holds the status code and the status
    message, and the file system is left as it was: no file is created. *)
Theorem download_rejects_bad_status (fuel : nat) (url : string) (fs : list string) :
  statusCode (https_get url) <> 200 ->
  statusCode (https_get url) <> 301 ->
  statusCode (https_get url) <> 302 ->
  download_ (S fuel) url fs
  = Some (Rejected ("Download failed, status code: "
                    ++ JS.number_to_string (statusCode (https_get url))
                    ++ ", message: " ++ statusMessage (https_get url)),
          fs).
Proof.
  intros H200 H301 H302. simpl.
  apply Nat.eqb_neq in H200, H301, H302.
  rewrite H200, H301, H302. reflexivity.
Qed.

(** The loop started at name [k] stops at the first free name [n]. *)
Lemma probe_first_free (fs : list string) (url : string) (n d k fuel : nat) :
  n = k + d ->
  (forall j, k <= j < n -> exists_ fs (candidate_ fs url j) = true) ->
  exists_ fs (candidate_ fs url n) = false ->
  d < fuel ->
  probe path_join fuel fs
        (download_folder path_join homedir fs)
        (path_basename url (path_extname url)) (path_extname url)
        (probe_name (path_basename url (path_extname url)) k) (S k)
  = Some (probe_name (path_basename url (path_extname url)) n).
Proof.
  revert k fuel; induction d as [|d IH]; intros k fuel Hn Hbusy Hfree Hfuel;
    (destruct fuel as [|fuel]; [lia|]); cbn [probe].
  - replace k with n by lia.
    unfold candidate in Hfree. rewrite Hfree. reflexivity.
  - pose proof (Hbusy k ltac:(lia)) as Hk.
    unfold candidate in Hk. rewrite Hk.
    rewrite Nat.add_1_r.
    apply (IH (S k) fuel); try lia; auto.
    intros j Hj. apply Hbusy. lia.
Qed.

(** C8: on a 200 response, when the names [name], [name-1], ...,
    [name-(n-1)] exist in the target folder and [name-n] does not, the
    download is written to [name-n] and, the write finishing, resolves to
    it; with [n >= 1] this is the case where the candidate name already
    exists. *)
Theorem download_probes_in_order (fuel n : nat) (url : string) (fs : list string) :
  statusCode (https_get url) = 200 ->
  (forall k, k < n -> exists_ fs (candidate_ fs url k) = true) ->
  exists_ fs (candidate_ fs url n) = false ->
  write_error (candidate_ fs url n) = None ->
  n + 2 <= fuel ->
  download_ fuel url fs
  = Some (Resolved (candidate_ fs url n), (candidate_ fs url n :: fs)%list).
Proof.
  intros H200 Hbusy Hfree Hwrite Hfuel.
  destruct fuel as [|fuel]; [lia|].
  simpl. rewrite H200. simpl.
  fold (download_folder path_join homedir fs).
  pose proof (probe_first_free fs url n n 0 fuel eq_refl) as P.
  cbn [probe_name] in P. rewrite P; try lia; auto.
  - unfold candidate in Hwrite. rewrite Hwrite. reflexivity.
  - intros j Hj. apply Hbusy. lia.
Qed.

End DownloadFacts.

Example sample_extname : SampleHost.extname "https://host/report.pdf" = ".pdf".
Proof. reflexivity. Qed.

Example sample_basename :
  SampleHost.basename "https://host/report.pdf" ".pdf" = "report".
Proof. reflexivity. Qed.

(** A 404 response: the error holds the code 404 and no file appears. *)
Lemma download_rejects_bad_status_witness :
  download SampleHost.extname SampleHost.basename SampleHost.join SampleHost.homedir
           SampleHost.https_get SampleHost.write_error
           1 "https://host/missing.pdf" ["/home/user/Downloads"]
  = Some (Rejected "Download failed, status code: 404, message: Not Found",
          ["/home/user/Downloads"]).
Proof.
  apply (download_rejects_bad_status
           SampleHost.extname SampleHost.basename SampleHost.join SampleHost.homedir
           SampleHost.https_get SampleHost.write_error
           0 "https://host/missing.pdf" ["/home/user/Downloads"]);
    simpl; lia.
Defined.

(** [report.pdf] exists in the target folder: the download resolves to
    [report-1.pdf]. *)
Lemma download_probes_in_order_witness :
  download SampleHost.extname SampleHost.basename SampleHost.join SampleHost.homedir
           SampleHost.https_get SampleHost.write_error
           3 "https://host/report.pdf"
           ["/home/user/Downloads/report.pdf"; "/home/user/Downloads"]
  = Some (Resolved "/home/user/Downloads/report-1.pdf",
          ["/home/user/Downloads/report-1.pdf";
           "/home/user/Downloads/report.pdf"; "/home/user/Downloads"]).
Proof.
  apply (download_probes_in_order
           SampleHost.extname SampleHost.basename SampleHost.join SampleHost.homedir
           SampleHost.https_get SampleHost.write_error
           3 1 "https://host/report.pdf"
           ["/home/user/Downloads/report.pdf"; "/home/user/Downloads"]).
  - reflexivity.
  - intros k Hk. assert (k = 0) as -> by lia. reflexivity.
  - reflexivity.
  - reflexivity.
  - lia.
Defined.

(** Two downloads of the same URL in a row: the first resolves to
    [report.pdf], the second, on the file system the first left, to
    [report-1.pdf]. *)
Example download_twice :
  exists fs1 fs2,
    download SampleHost.extname SampleHost.basename SampleHost.join SampleHost.homedir
             SampleHost.https_get SampleHost.write_error
             3 "https://host/report.pdf" ["/home/user/Downloads"]
    = Some (Resolved "/home/user/Downloads/report.pdf", fs1)
    /\
    download SampleHost.extname SampleHost.basename SampleHost.join SampleHost.homedir
             SampleHost.https_get SampleHost.write_error
             3 "https://host/report.pdf" fs1
    = Some (Resolved "/home/user/Downloads/report-1.pdf", fs2).
Proof. do 2 eexists. split; reflexivity. Qed.

(* ================================================================= *)
(** ** Loader of the flat account tree node *)

Section LoaderFacts.

Variable TreeNode : Type.
Variable sort_by_label : list TreeNode -> list TreeNode.
Variable message_node : string -> TreeNode.

Local Notation "'turn_'" := (turn sort_by_label message_node).
Local Notation "'run_'" := (run sort_by_label message_node).
Local Notation "'System_'" := (System TreeNode).

Lemma count_running_app (a b : list Load) :
  count_running (a ++ b)%list = count_running a + count_running b.
Proof. unfold count_running. now rewrite filter_app, length_app. Qed.

Lemma count_running_cons (l : Load) (ls : list Load) :
  count_running (l :: ls) = unfinished l + count_running ls.
Proof. unfold count_running, unfinished; simpl. now destruct (finished l). Qed.

Lemma count_running_set_nth (ls : list Load) (k : nat) (old new : Load) :
  nth_error ls k = Some old ->
  count_running (set_nth k new ls) + unfinished old
  = count_running ls + unfinished new.
Proof.
  revert k; induction ls as [|l ls IH]; intros k H.
  - destruct k; discriminate.
  - destruct k as [|k]; simpl in H.
    + injection H as ->. simpl. rewrite !count_running_cons. lia.
    + simpl. rewrite !count_running_cons. specialize (IH k H). lia.
Qed.

Lemma turn_keeps_flag_counts (s : System_) (t : Turn TreeNode) :
  flag_counts s -> flag_counts (turn_ s t).
Proof.
  unfold flag_counts, running.
  intros Inv. destruct t as [|k rs|k e|k]; simpl.
  - unfold start. destruct (isLoading (loader s)) eqn:L; simpl.
    + now rewrite L.
    + rewrite count_running_app, Inv. reflexivity.
  - unfold resources_arrived.
    destruct (nth_error (loads s) k) as [l|] eqn:E; [|exact Inv].
    destruct rs as [|r rs]; [exact Inv|].
    destruct (finished l) eqn:F; [exact Inv|]. simpl.
    pose proof (count_running_set_nth (loads s) k l
                  (mkLoad true (interval_set l) false) E) as C.
    unfold unfinished in C; simpl in C; rewrite F in C. lia.
  - unfold finish.
    destruct (nth_error (loads s) k) as [l|] eqn:E; [|exact Inv].
    destruct (finished l) eqn:F; [exact Inv|]. simpl.
    pose proof (count_running_set_nth (loads s) k l
                  (mkLoad (newNodesAvailable l) (interval_set l) true) E) as C.
    unfold unfinished in C; simpl in C; rewrite F in C.
    destruct (isLoading (loader s)); lia.
  - unfold tick.
    destruct (nth_error (loads s) k) as [l|] eqn:E; [|exact Inv].
    destruct (interval_set l) eqn:I; [|exact Inv]. simpl.
    pose proof (count_running_set_nth (loads s) k l
                  (mkLoad false (isLoading (loader s)) (finished l)) E) as C.
    unfold unfinished in C; simpl in C.
    destruct (finished l); lia.
Qed.

Lemma fold_turn_keeps_flag_counts (turns : list (Turn TreeNode)) (s : System_) :
  flag_counts s -> flag_counts (fold_left turn_ turns s).
Proof.
  revert s; induction turns as [|t ts IH]; intros s Inv; simpl.
  - exact Inv.
  - apply IH, turn_keeps_flag_counts, Inv.
Qed.

(** C9: a call of [start] while [isLoading] is set returns at once and
    leaves the node list, the flag and the fired events as they were; and
    whatever the event loop has run since the loader was created, at most
    one load is in progress. *)
Theorem start_not_reentered :
  (forall s : System_, isLoading (loader s) = true -> start s = s)
  /\
  (forall turns : list (Turn TreeNode), running (run_ turns) <= 1).
Proof.
  split.
  - intros s H. unfold start. now rewrite H.
  - intros turns.
    assert (Inv : flag_counts (run_ turns)).
    { unfold run. apply fold_turn_keeps_flag_counts. reflexivity. }
    unfold flag_counts in Inv. rewrite Inv.
    destruct (isLoading (loader (run_ turns))); lia.
Qed.

End LoaderFacts.

(** A second call of [start] while the first load is running changes
    nothing, and after the load has ended a new call starts the next one. *)
Example start_twice :
  run (fun l : list nat => l) (fun _ => 0) [CallStart; CallStart]
  = run (fun l : list nat => l) (fun _ => 0) [CallStart]
  /\
  running (run (fun l : list nat => l) (fun _ => 0)
             [CallStart; ResourcesArrived 0 [3; 4]; Finish 0 None; CallStart])
  = 1.
Proof. split; reflexivity. Qed.

(* ================================================================= *)
(** ** Validation *)

Lemma push_keeps (x : string) : keeps (fun msgs => push msgs x).
Proof. intros msgs m H. unfold push. apply in_or_app. now left. Qed.

Lemma push_In (msgs : list string) (x : string) : In x (push msgs x).
Proof. unfold push. apply in_or_app. right. now left. Qed.

Lemma validateNameDisplayName_keeps (name displayName type positionInfo : string) :
  keeps (validateNameDisplayName name displayName type positionInfo).
Proof.
  intros msgs m H. unfold validateNameDisplayName.
  destruct (negb (JS.truthy name)), (negb (JS.truthy displayName));
    repeat apply push_keeps; exact H.
Qed.

Lemma fold_left_keeps {A} (f : list string -> A -> list string) (l : list A) :
  (forall x, keeps (fun msgs => f msgs x)) ->
  keeps (fun msgs => fold_left f l msgs).
Proof.
  intros Hf. induction l as [|x l IH]; intros msgs m H; simpl.
  - exact H.
  - apply IH. apply (Hf x). exact H.
Qed.

(** What one iteration pushes stays until the loop ends. *)
Lemma fold_left_In {A} (f : list string -> A -> list string) (l : list A)
      (x : A) (m : string) (msgs : list string) :
  (forall y, keeps (fun acc => f acc y)) ->
  In x l ->
  (forall acc, In m (f acc x)) ->
  In m (fold_left f l msgs).
Proof.
  intros Hf. revert msgs. induction l as [|y l IH]; intros msgs Hin Hm; simpl.
  - contradiction.
  - destruct Hin as [->|Hin].
    + apply (fold_left_keeps f l Hf). apply Hm.
    + apply IH; assumption.
Qed.

Lemma forEach_indexed_from_keeps {A} (body : A -> nat -> list string -> list string)
      (xs : list A) (n : nat) :
  (forall x k, keeps (body x k)) ->
  keeps (fun msgs =>
           snd (fold_left (fun st x => (fst st + 1, body x (fst st) (snd st)))
                          xs (n, msgs))).
Proof.
  intros Hb. revert n. induction xs as [|x xs IH]; intros n msgs m H; simpl.
  - exact H.
  - apply IH. apply Hb. exact H.
Qed.

Lemma forEach_indexed_keeps {A} (body : A -> nat -> list string -> list string)
      (xs : list A) :
  (forall x k, keeps (body x k)) -> keeps (forEach_indexed body xs).
Proof. intros Hb. apply (forEach_indexed_from_keeps body xs 1 Hb). Qed.

Lemma forEach_indexed_from_In {A} (body : A -> nat -> list string -> list string)
      (xs : list A) (n k : nat) (x : A) (m : string) (msgs : list string) :
  (forall y j, keeps (body y j)) ->
  nth_error xs k = Some x ->
  (forall acc, In m (body x (n + k) acc)) ->
  In m (snd (fold_left (fun st y => (fst st + 1, body y (fst st) (snd st)))
                       xs (n, msgs))).
Proof.
  intros Hb. revert n k msgs.
  induction xs as [|y xs IH]; intros n k msgs Hk Hm.
  - destruct k; discriminate.
  - destruct k as [|k]; simpl in *.
    + injection Hk as ->. apply (forEach_indexed_from_keeps body xs (n + 1) Hb).
      rewrite Nat.add_0_r in Hm. apply Hm.
    + apply (IH (n + 1) k); [exact Hk|].
      intros acc. replace (n + 1 + k) with (n + S k) by lia. apply Hm.
Qed.

(** The body run at position [k] (counted from 0) sees the counter [k + 1];
    what it pushes is in the final list. *)
Lemma forEach_indexed_In {A} (body : A -> nat -> list string -> list string)
      (xs : list A) (k : nat) (x : A) (m : string) (msgs : list string) :
  (forall y j, keeps (body y j)) ->
  nth_error xs k = Some x ->
  (forall acc, In m (body x (k + 1) acc)) ->
  In m (forEach_indexed body xs msgs).
Proof.
  intros Hb Hk Hm. apply (forEach_indexed_from_In body xs 1 k x m msgs Hb Hk).
  intros acc. replace (1 + k) with (k + 1) by lia. apply Hm.
Qed.

Lemma fold_left_collect {A B} (f : A -> bool) (g : A -> B) (l : list A) (init : list B) :
  fold_left (fun acc j => if f j then (acc ++ [g j])%list else acc) l init
  = (init ++ map g (filter f l))%list.
Proof.
  revert init; induction l as [|x l IH]; intros init; simpl.
  - now rewrite app_nil_r.
  - rewrite IH. destruct (f x); simpl; [|reflexivity].
    now rewrite <- app_assoc.
Qed.

(** The inner loop collects, in order, the 1-based positions after [i] whose
    value shares the name or the display name of the value at [i]. *)
Lemma dupePositions_filter (values : list OptionValue) (i : nat) :
  dupePositions values i
  = map (fun j => j + 1)
        (filter (fun j => same_name_or_displayName (value_at values i) (value_at values j))
                (seq (i + 1) (List.length values - (i + 1)))).
Proof. unfold dupePositions. now rewrite fold_left_collect. Qed.

Lemma value_at_nth_error (values : list OptionValue) (i : nat) (v : OptionValue) :
  nth_error values i = Some v -> value_at values i = v.
Proof. intros H. unfold value_at. now apply nth_error_nth. Qed.

Lemma same_name_or_displayName_iff (a b : OptionValue) :
  same_name_or_displayName a b = true <->
  value_name a = value_name b \/ value_displayName a = value_displayName b.
Proof.
  unfold same_name_or_displayName. rewrite orb_true_iff, !String.eqb_eq. reflexivity.
Qed.

Lemma dupePositions_In (values : list OptionValue) (i : nat) (vi : OptionValue) (k : nat) :
  nth_error values i = Some vi ->
  (In k (dupePositions values i) <->
   exists j vj, i < j /\ nth_error values j = Some vj /\ k = j + 1 /\
                (value_name vi = value_name vj
                 \/ value_displayName vi = value_displayName vj)).
Proof.
  intros Hi. rewrite dupePositions_filter, in_map_iff.
  rewrite (value_at_nth_error values i vi Hi). split.
  - intros (j & <- & Hj). apply filter_In in Hj as [Hseq Hsame].
    apply in_seq in Hseq.
    assert (Hlt : j < List.length values) by lia.
    destruct (nth_error values j) as [vj|] eqn:Ej;
      [|apply nth_error_None in Ej; lia].
    rewrite (value_at_nth_error values j vj Ej) in Hsame.
    exists j, vj. repeat split; try lia; auto.
    now apply same_name_or_displayName_iff.
  - intros (j & vj & Hij & Ej & -> & Hsame).
    exists j. split; [reflexivity|]. apply filter_In. split.
    + apply in_seq.
      assert (j < List.length values) by (apply nth_error_Some; congruence). lia.
    + rewrite (value_at_nth_error values j vj Ej).
      now apply same_name_or_displayName_iff.
Qed.

Lemma truthy_nonempty (s : string) : s <> "" -> JS.truthy s = true.
Proof.
  intros H. unfold JS.truthy. apply negb_true_iff. now apply String.eqb_neq.
Qed.

Lemma validateUniqueValues_keeps (values : list OptionValue) (positionInfo : string) :
  keeps (validateUniqueValues values positionInfo).
Proof.
  unfold validateUniqueValues. apply fold_left_keeps.
  intros i msgs m H.
  destruct (JS.truthy _ && JS.truthy _); [|exact H].
  destruct (negb _); [apply push_keeps|]; exact H.
Qed.

Lemma validateUniqueValues_In (values : list OptionValue) (positionInfo : string)
      (i : nat) (vi : OptionValue) (msgs : list string) :
  nth_error values i = Some vi ->
  value_name vi <> "" -> value_displayName vi <> "" ->
  dupePositions values i <> [] ->
  In (duplicate_message i (dupePositions values i) positionInfo)
     (validateUniqueValues values positionInfo msgs).
Proof.
  intros Hi Hn Hd Hdup. unfold validateUniqueValues.
  apply fold_left_In with (x := i).
  - intros j acc m H.
    destruct (JS.truthy _ && JS.truthy _); [|exact H].
    destruct (negb _); [apply push_keeps|]; exact H.
  - apply in_seq.
    assert (i < List.length values) by (apply nth_error_Some; congruence). lia.
  - intros acc. rewrite (value_at_nth_error values i vi Hi).
    rewrite (truthy_nonempty _ Hn), (truthy_nonempty _ Hd). simpl.
    destruct (dupePositions values i) as [|d ds] eqn:E; [contradiction|].
    simpl. apply push_In.
Qed.

Section ValidationFacts.

Variable Tool : Type.
Variable getToolByName : string -> option Tool.

Lemma validateResourceTypeOption_keeps (option : ResourceTypeOption)
      (positionInfo : string) :
  keeps (validateResourceTypeOption option positionInfo).
Proof.
  intros msgs m H. unfold validateResourceTypeOption.
  destruct (List.length (opt_values option) =? 0)%nat.
  - apply push_keeps, validateNameDisplayName_keeps, H.
  - apply validateUniqueValues_keeps, forEach_indexed_keeps.
    + intros v k. apply validateNameDisplayName_keeps.
    + apply validateNameDisplayName_keeps, H.
Qed.

Lemma validateProviders_keeps (resourceType : ResourceType) (positionInfo : string) :
  keeps (validateProviders Tool getToolByName resourceType positionInfo).
Proof.
  intros msgs m H. unfold validateProviders.
  destruct (List.length (rt_providers resourceType) =? 0)%nat.
  - apply push_keeps, H.
  - apply forEach_indexed_keeps; [|exact H].
    intros p k acc m' H'. apply fold_left_keeps.
    + intros tool acc' m'' H''.
      destruct (negb (is_some _)); [apply push_keeps|]; exact H''.
    + destruct (negb (recognized_provider p)); [apply push_keeps|]; exact H'.
Qed.

Lemma validateResourceType_keeps (resourceType : ResourceType) (positionInfo : string) :
  keeps (validateResourceType Tool getToolByName resourceType positionInfo).
Proof.
  intros msgs m H. unfold validateResourceType.
  apply validateProviders_keeps, forEach_indexed_keeps.
  - intros opt k. apply validateResourceTypeOption_keeps.
  - destruct (negb (icon_ok _)); [apply push_keeps|];
      apply validateNameDisplayName_keeps, H.
Qed.

(** The message of the uniqueness check of one option. *)
Lemma validateResourceTypeOption_duplicates (option : ResourceTypeOption)
      (positionInfo : string) (i : nat) (vi : OptionValue) (msgs : list string) :
  nth_error (opt_values option) i = Some vi ->
  value_name vi <> "" -> value_displayName vi <> "" ->
  dupePositions (opt_values option) i <> [] ->
  In (duplicate_message i (dupePositions (opt_values option) i) positionInfo)
     (validateResourceTypeOption option positionInfo msgs).
Proof.
  intros Hi Hn Hd Hdup. unfold validateResourceTypeOption.
  assert (Hlen : (List.length (opt_values option) =? 0)%nat = false).
  { apply Nat.eqb_neq.
    assert (i < List.length (opt_values option))
      by (apply nth_error_Some; congruence). lia. }
  rewrite Hlen. now apply validateUniqueValues_In with (vi := vi).
Qed.

(** C6: when an option holds, at positions [i < j] (counted from 0), two
    values that share their name or their display name, and the earlier one
    has a name and a display name, the output of [validateResourceTypes]
    holds the message of the uniqueness check for [i]: it names the
    position [i + 1] and then the positions of all later values that are in
    conflict with the value at [i], [j + 1] among them. *)
Theorem validateResourceTypes_reports_duplicates
        (resourceTypes : list ResourceType) (r o i j : nat)
        (resourceType : ResourceType) (option : ResourceTypeOption)
        (vi vj : OptionValue) :
  nth_error resourceTypes r = Some resourceType ->
  nth_error (rt_options resourceType) o = Some option ->
  nth_error (opt_values option) i = Some vi ->
  nth_error (opt_values option) j = Some vj ->
  i < j ->
  value_name vi <> "" ->
  value_displayName vi <> "" ->
  value_name vi = value_name vj \/ value_displayName vi = value_displayName vj ->
  exists dupes : list nat,
    In (duplicate_message i dupes
          ("resource type index: " ++ JS.number_to_string (r + 1)
           ++ ", option index: " ++ JS.number_to_string (o + 1) ++ " "))
       (validateResourceTypes Tool getToolByName resourceTypes)
    /\ In (j + 1) dupes
    /\ (forall k, In k dupes <->
          exists j' vj', i < j' /\ nth_error (opt_values option) j' = Some vj'
                         /\ k = j' + 1
                         /\ (value_name vi = value_name vj'
                             \/ value_displayName vi = value_displayName vj')).
Proof.
  intros Hr Ho Hi Hj Hij Hn Hd Hsame.
  exists (dupePositions (opt_values option) i).
  assert (Hin : In (j + 1) (dupePositions (opt_values option) i)).
  { apply (dupePositions_In _ i vi (j + 1) Hi). exists j, vj. auto. }
  split; [|split; [exact Hin | intros k; now apply dupePositions_In]].
  unfold validateResourceTypes.
  assert (Hlen : (List.length resourceTypes =? 0)%nat = false).
  { apply Nat.eqb_neq.
    assert (r < List.length resourceTypes) by (apply nth_error_Some; congruence). lia. }
  rewrite Hlen.
  apply forEach_indexed_In with (k := r) (x := resourceType); [| exact Hr |].
  - intros rt k. apply validateResourceType_keeps.
  - intros acc. unfold validateResourceType.
    apply validateProviders_keeps.
    apply forEach_indexed_In with (k := o) (x := option); [| exact Ho |].
    + intros opt k. apply validateResourceTypeOption_keeps.
    + intros acc'.
      apply validateResourceTypeOption_duplicates with (vi := vi); auto.
      intros E. rewrite E in Hin. contradiction.
Qed.

End ValidationFacts.

(** The example of the specification: the option with the values
    [{x, X}] and [{x, Y}]; the message names the positions 1 and 2. *)
Example validate_duplicate_names :
  validateResourceTypes unit (fun _ => None)
    [mkResourceType "rt" "Resource" (Some (mkIcon "d.svg" "l.svg"))
       [mkOption "opt" "Option" [mkValue "x" "X"; mkValue "x" "Y"]]
       [mkProvider None [] None None None None None None (Some "cmd") None None]
       None]
  = ["Option values with same name or display name are found at the following positions: 1, 2.resource type index: 1, option index: 1  "].
Proof. reflexivity. Qed.

Lemma validateResourceTypes_reports_duplicates_witness :
  exists dupes : list nat,
    In (duplicate_message 0 dupes "resource type index: 1, option index: 1 ")
       (validateResourceTypes unit (fun _ => None)
          [mkResourceType "rt" "Resource" (Some (mkIcon "d.svg" "l.svg"))
             [mkOption "opt" "Option" [mkValue "x" "X"; mkValue "x" "Y"]]
             [mkProvider None [] None None None None None None (Some "cmd") None None]
             None])
    /\ In 2 dupes
    /\ (forall k, In k dupes <->
          exists j' vj', 0 < j'
             /\ nth_error [mkValue "x" "X"; mkValue "x" "Y"] j' = Some vj'
             /\ k = j' + 1
             /\ ("x" = value_name vj' \/ "X" = value_displayName vj')).
Proof.
  apply (validateResourceTypes_reports_duplicates unit (fun _ => None)
           [mkResourceType "rt" "Resource" (Some (mkIcon "d.svg" "l.svg"))
              [mkOption "opt" "Option" [mkValue "x" "X"; mkValue "x" "Y"]]
              [mkProvider None [] None None None None None None (Some "cmd") None None]
              None]
           0 0 0 1 _ _ (mkValue "x" "X") (mkValue "x" "Y")
           eq_refl eq_refl eq_refl eq_refl).
  - lia.
  - discriminate.
  - discriminate.
  - left; reflexivity.
Defined.

(* ================================================================= *)
(** ** Further properties of the clause evaluator *)

Lemma sort_In (c : string) (l : list string) : In c (JS.sort l) <-> In c l.
Proof.
  split; apply Permutation_in; [apply sort_perm | apply Permutation_sym, sort_perm].
Qed.

(** X1: selecting more options never turns an accepted [when] clause into a
    rejected one. *)
Theorem processWhenClause_monotone (when : option string)
        (selected more : list SelectedOption) :
  incl selected more ->
  processWhenClause when selected = true ->
  processWhenClause when more = true.
Proof.
  intros Hincl. destruct when as [w|]; [|reflexivity]. unfold processWhenClause.
  destruct (String.eqb (JS.toLowerCase w) "true"); [reflexivity|].
  rewrite !all_clauses_found_Forall. apply Forall_impl.
  intros c Hc. apply in_map_iff in Hc as (o & <- & Ho).
  apply in_map, Hincl, Ho.
Qed.

Lemma processWhenClause_monotone_witness :
  processWhenClause (Some "a=1") [mkSelected "a" "1"; mkSelected "b" "2"] = true.
Proof.
  apply (processWhenClause_monotone (Some "a=1") [mkSelected "a" "1"]
           [mkSelected "a" "1"; mkSelected "b" "2"]).
  - intros o [<-|[]]. now left.
  - reflexivity.
Defined.

Lemma format_selected_has_equals (o : SelectedOption) :
  occurs "=" (format_selected o) = true.
Proof.
  unfold format_selected. rewrite occurs_append. simpl. apply orb_true_r.
Qed.

(** X2: unless the whole [when] string lower-cases to [true], a clause
    without the character [=] makes the result false under every selection;
    so do the empty string, a trailing [&&] and a [true] that stands beside
    whitespace or other clauses. *)
Theorem processWhenClause_clause_without_equals
        (w clause : string) (selected : list SelectedOption) :
  JS.toLowerCase w <> "true" ->
  In clause (JS.split_and (JS.remove_whitespace w)) ->
  occurs "=" clause = false ->
  processWhenClause (Some w) selected = false.
Proof.
  intros Hw Hin Hno. unfold processWhenClause.
  apply String.eqb_neq in Hw. rewrite Hw.
  apply not_true_is_false. intros H.
  apply all_clauses_found_Forall in H. rewrite Forall_forall in H.
  specialize (H clause (proj2 (sort_In _ _) Hin)).
  apply in_map_iff in H as (o & <- & _).
  rewrite format_selected_has_equals in Hno. discriminate.
Qed.

Lemma processWhenClause_clause_without_equals_witness :
  processWhenClause (Some " true") [mkSelected "a" "1"] = false
  /\ processWhenClause (Some "") [mkSelected "a" "1"] = false
  /\ processWhenClause (Some "a=1&&") [mkSelected "a" "1"] = false.
Proof.
  split; [|split].
  - apply (processWhenClause_clause_without_equals " true" "true");
      [discriminate | now left | reflexivity].
  - apply (processWhenClause_clause_without_equals "" "");
      [discriminate | now left | reflexivity].
  - apply (processWhenClause_clause_without_equals "a=1&&" "");
      [discriminate | right; now left | reflexivity].
Defined.

Lemma whitespace_after_lower (c : ascii) :
  JS.is_whitespace c = true -> JS.is_whitespace (JS.lower_char c) = true.
Proof.
  destruct c as [[] [] [] [] [] [] [] []]; vm_compute; intros H; exact H.
Qed.

Lemma not_whitespace_before_lower (c : ascii) :
  JS.is_whitespace (JS.lower_char c) = false -> JS.is_whitespace c = false.
Proof.
  intros H. destruct (JS.is_whitespace c) eqn:E; [|reflexivity].
  apply whitespace_after_lower in E. congruence.
Qed.

Lemma remove_whitespace_idempotent (w : string) :
  JS.remove_whitespace (JS.remove_whitespace w) = JS.remove_whitespace w.
Proof.
  induction w as [|c w IH]; simpl; [reflexivity|].
  destruct (JS.is_whitespace c) eqn:E; simpl; [exact IH|].
  now rewrite E, IH.
Qed.

(** A string that lower-cases to [true] holds no whitespace. *)
Lemma lower_true_no_whitespace (w : string) :
  JS.toLowerCase w = "true" -> JS.remove_whitespace w = w.
Proof.
  destruct w as [|a [|b [|c [|d [|e w]]]]]; cbn [JS.toLowerCase]; try discriminate.
  intros [= Ha Hb Hc Hd].
  cbn [JS.remove_whitespace].
  rewrite (not_whitespace_before_lower a) by (rewrite Ha; reflexivity).
  rewrite (not_whitespace_before_lower b) by (rewrite Hb; reflexivity).
  rewrite (not_whitespace_before_lower c) by (rewrite Hc; reflexivity).
  rewrite (not_whitespace_before_lower d) by (rewrite Hd; reflexivity).
  reflexivity.
Qed.

(** X3: whitespace in a [when] string is ignored, as long as what is left
    without it does not lower-case to the literal [true]. *)
Theorem processWhenClause_ignores_whitespace
        (w : string) (selected : list SelectedOption) :
  JS.toLowerCase (JS.remove_whitespace w) <> "true" ->
  processWhenClause (Some w) selected
  = processWhenClause (Some (JS.remove_whitespace w)) selected.
Proof.
  intros H. unfold processWhenClause.
  assert (Hw : String.eqb (JS.toLowerCase w) "true" = false).
  { apply String.eqb_neq. intros E.
    rewrite (lower_true_no_whitespace w E) in H. contradiction. }
  apply String.eqb_neq in H. rewrite Hw, H.
  now rewrite remove_whitespace_idempotent.
Qed.

Lemma processWhenClause_ignores_whitespace_witness :
  processWhenClause (Some " a = 1 && b = 2 ") [mkSelected "a" "1"; mkSelected "b" "2"]
  = processWhenClause (Some "a=1&&b=2") [mkSelected "a" "1"; mkSelected "b" "2"].
Proof.
  apply (processWhenClause_ignores_whitespace " a = 1 && b = 2 "
           [mkSelected "a" "1"; mkSelected "b" "2"]).
  discriminate.
Defined.

(** Whitespace is not ignored around the literal: [" true"] is rejected
    where ["true"] is accepted. *)
Example processWhenClause_true_with_whitespace :
  processWhenClause (Some "true") [] = true
  /\ processWhenClause (Some " true") [] = false.
Proof. split; reflexivity. Qed.

(* ================================================================= *)
(** ** The text of the ok button *)

Lemma okButtonText_loop_first (rules : list OkButtonRule)
      (selected : list SelectedOption) (k : nat) (r : OkButtonRule) :
  nth_error rules k = Some r ->
  processWhenClause (rule_when r) selected = true ->
  (forall j q, j < k -> nth_error rules j = Some q ->
               processWhenClause (rule_when q) selected = false) ->
  okButtonText_loop rules selected = Some (rule_value r).
Proof.
  revert k; induction rules as [|q rules IH]; intros k Hk Hr Hbefore.
  - destruct k; discriminate.
  - destruct k as [|k]; simpl in *.
    + injection Hk as ->. now rewrite Hr.
    + rewrite (Hbefore 0 q ltac:(lia) eq_refl).
      apply (IH k Hk Hr). intros j q' Hj Hq'.
      apply (Hbefore (S j) q'); [lia | exact Hq'].
Qed.

(** X4: [getOkButtonText] returns the value of the first rule, in declared
    order, whose [when] clause is accepted under the selected options. *)
Theorem getOkButtonText_first_match (resourceType : ResourceType)
        (selected : list SelectedOption) (rules : list OkButtonRule)
        (k : nat) (r : OkButtonRule) :
  rt_okButtonText resourceType = Some rules ->
  nth_error rules k = Some r ->
  processWhenClause (rule_when r) selected = true ->
  (forall j q, j < k -> nth_error rules j = Some q ->
               processWhenClause (rule_when q) selected = false) ->
  getOkButtonText resourceType selected = Some (rule_value r).
Proof.
  intros Hrules Hk Hr Hbefore. unfold getOkButtonText. rewrite Hrules.
  now rewrite (okButtonText_loop_first rules selected k r Hk Hr Hbefore).
Qed.

Lemma getOkButtonText_first_match_witness :
  getOkButtonText
    (mkResourceType "r" "R" None [] []
       (Some [mkRule (Some "a=2") "Open"; mkRule (Some "a=1") "Deploy";
              mkRule None "Run"]))
    [mkSelected "a" "1"]
  = Some "Deploy".
Proof.
  apply (getOkButtonText_first_match
           (mkResourceType "r" "R" None [] []
              (Some [mkRule (Some "a=2") "Open"; mkRule (Some "a=1") "Deploy";
                     mkRule None "Run"]))
           [mkSelected "a" "1"]
           [mkRule (Some "a=2") "Open"; mkRule (Some "a=1") "Deploy"; mkRule None "Run"]
           1 (mkRule (Some "a=1") "Deploy")).
  - reflexivity.
  - reflexivity.
  - reflexivity.
  - intros j q Hj Hq. assert (j = 0) as -> by lia.
    injection Hq as <-. reflexivity.
Defined.

(* ================================================================= *)
(** ** Further properties of the dispatch *)

(** X5: [startDeployment] opens the notebook wizard exactly when the resource
    type is undefined, has no provider, or its first provider carries none of
    [azureSQLVMWizard], [azureSQLDBWizard] and [bdcWizard]; the providers
    after the first play no part. *)
Theorem startDeployment_notebook_wizard (resourceType : option ResourceType) :
  startDeployment resourceType = [OpenNotebookWizard resourceType]
  <->
  (first_provider resourceType = None
   \/ exists p, first_provider resourceType = Some p
                /\ azureSQLVMWizard p = None
                /\ azureSQLDBWizard p = None
                /\ bdcWizard p = None).
Proof.
  unfold startDeployment,
    instanceOfAzureSQLVMDeploymentProvider, instanceOfAzureSQLDBDeploymentProvider,
    instanceOfWizardDeploymentProvider, instanceOf.
  destruct (first_provider resourceType) as [p|].
  - destruct (azureSQLVMWizard p) eqn:E1; simpl.
    { split; [discriminate|]. intros [H|(q & [= <-] & H & _)]; congruence. }
    destruct (azureSQLDBWizard p) eqn:E2; simpl.
    { split; [discriminate|]. intros [H|(q & [= <-] & _ & H & _)]; congruence. }
    destruct (bdcWizard p) eqn:E3; simpl.
    { split; [discriminate|]. intros [H|(q & [= <-] & _ & _ & H)]; congruence. }
    split; auto. intros _. right. exists p. auto.
  - simpl. split; auto.
Qed.

(** X6: [startDeploymentFromWizard] does nothing exactly when the provider
    carries none of [bdcWizard], [dialog], [notebook], [downloadUrl],
    [webPageUrl] and [command]; so a provider that validation accepts for its
    [notebookWizard], [azureSQLVMWizard] or [azureSQLDBWizard] alone is
    dropped without any action. *)
Theorem startDeploymentFromWizard_nothing (provider : DeploymentProvider)
                                          (resourceType : option ResourceType) :
  (startDeploymentFromWizard provider resourceType = []
   <->
   (bdcWizard provider = None /\ dialog provider = None
    /\ provider_notebook provider = None /\ downloadUrl provider = None
    /\ webPageUrl provider = None /\ command provider = None))
  /\
  (recognized_provider provider = true ->
   startDeploymentFromWizard provider resourceType = [] ->
   is_some (notebookWizard provider) || is_some (azureSQLVMWizard provider)
   || is_some (azureSQLDBWizard provider) = true).
Proof.
  assert (Hiff :
    startDeploymentFromWizard provider resourceType = []
    <-> (bdcWizard provider = None /\ dialog provider = None
         /\ provider_notebook provider = None /\ downloadUrl provider = None
         /\ webPageUrl provider = None /\ command provider = None)).
  { unfold startDeploymentFromWizard,
      instanceOfWizardDeploymentProvider, instanceOfDialogDeploymentProvider,
      instanceOfNotebookDeploymentProvider, instanceOfDownloadDeploymentProvider,
      instanceOfWebPageDeploymentProvider, instanceOfCommandDeploymentProvider,
      instanceOf.
    destruct (bdcWizard provider); simpl;
      [split; [discriminate | intros (H & _); discriminate]|].
    destruct (dialog provider); simpl;
      [split; [discriminate | intros (_ & H & _); discriminate]|].
    destruct (provider_notebook provider); simpl;
      [split; [discriminate | intros (_ & _ & H & _); discriminate]|].
    destruct (downloadUrl provider); simpl;
      [split; [discriminate | intros (_ & _ & _ & H & _); discriminate]|].
    destruct (webPageUrl provider); simpl;
      [split; [discriminate | intros (_ & _ & _ & _ & H & _); discriminate]|].
    destruct (command provider); simpl;
      [split; [discriminate | intros (_ & _ & _ & _ & _ & H); discriminate]|].
    split; auto 10. }
  split; [exact Hiff|].
  intros Hrec Hnone. apply Hiff in Hnone as (H1 & H2 & H3 & H4 & H5 & H6).
  unfold recognized_provider,
    instanceOfWizardDeploymentProvider, instanceOfNotebookWizardDeploymentProvider,
    instanceOfDialogDeploymentProvider, instanceOfNotebookDeploymentProvider,
    instanceOfDownloadDeploymentProvider, instanceOfWebPageDeploymentProvider,
    instanceOfCommandDeploymentProvider, instanceOfAzureSQLVMDeploymentProvider,
    instanceOfAzureSQLDBDeploymentProvider, instanceOf in Hrec.
  rewrite H1, H2, H3, H4, H5, H6 in Hrec. simpl in Hrec.
  destruct (notebookWizard provider); simpl in *; [reflexivity|].
  exact Hrec.
Qed.

Lemma startDeploymentFromWizard_nothing_witness :
  is_some (notebookWizard
             (mkProvider None [] None (Some (mkHolder (Some (NbString "deploy.ipynb"))))
                         None None None None None None None))
  || false || false = true.
Proof.
  exact (proj2 (startDeploymentFromWizard_nothing
                  (mkProvider None [] None
                              (Some (mkHolder (Some (NbString "deploy.ipynb"))))
                              None None None None None None None)
                  None) eq_refl eq_refl).
Defined.

(* ================================================================= *)
(** ** Further properties of the download helper *)

Section DownloadInvariants.

Variable path_extname : string -> string.
Variable path_basename : string -> string -> string.
Variable path_join : string -> string -> string.
Variable homedir : string.
Variable https_get : string -> Response.
Variable write_error : string -> option string.

Local Notation "'download_'" :=
  (download path_extname path_basename path_join homedir https_get write_error).
Local Notation "'candidate_'" :=
  (candidate path_extname path_basename path_join homedir).

Lemma exists_false_not_In (fs : list string) (path : string) :
  exists_ fs path = false -> ~ In path fs.
Proof.
  unfold exists_. intros H Hin.
  assert (E : existsb (String.eqb path) fs = true).
  { apply existsb_exists. exists path. split; [exact Hin | apply String.eqb_refl]. }
  congruence.
Qed.

(** The name the loop stops at does not exist. *)
Lemma probe_result_free (fuel : nat) (fs : list string)
      (folder original extension fileName : string) (cnt : nat) (result : string) :
  probe path_join fuel fs folder original extension fileName cnt = Some result ->
  exists_ fs (path_join folder (result ++ extension)) = false.
Proof.
  revert fileName cnt; induction fuel as [|fuel IH]; intros fileName cnt; simpl.
  - discriminate.
  - destruct (exists_ fs (path_join folder (fileName ++ extension))) eqn:E.
    + apply IH.
    + intros [= <-]. exact E.
Qed.

(** How a download can settle, whatever the redirects before. *)
Lemma download_settles_as (fuel : nat) (url : string) (fs : list string)
      (r : Settled) (fs' : list string) :
  download_ fuel url fs = Some (r, fs') ->
  match r with
  | Resolved f => ~ In f fs /\ fs' = (f :: fs)%list
  | Rejected _ => fs' = fs
  end.
Proof.
  revert url; induction fuel as [|fuel IH]; intros url; simpl; [discriminate|].
  destruct ((statusCode (https_get url) =? 301)%nat
            || (statusCode (https_get url) =? 302)%nat).
  - apply IH.
  - destruct (negb (statusCode (https_get url) =? 200)%nat).
    + intros [= <- <-]. reflexivity.
    + destruct (probe _ _ _ _ _ _ _ _) as [name|] eqn:P; [|discriminate].
      apply probe_result_free, exists_false_not_In in P.
      destruct (write_error _).
      * intros [= <- <-]. destruct (string_dec _ _) as [_|N]; [|contradiction].
        now apply notin_remove.
      * intros [= <- <-]. split; [exact P | reflexivity].
Qed.

(** X7: a download never overwrites: the file it resolves to did not exist
    before, and it is the only change to the file system, whatever redirects
    were followed. *)
Theorem download_never_overwrites (fuel : nat) (url : string) (fs : list string)
        (fileName : string) (fs' : list string) :
  download path_extname path_basename path_join homedir https_get write_error fuel url fs
  = Some (Resolved fileName, fs') ->
  ~ In fileName fs /\ fs' = (fileName :: fs)%list.
Proof. intros H. exact (download_settles_as fuel url fs (Resolved fileName) fs' H). Qed.

(** X8: a rejected download leaves the file system as it was: after a bad
    status nothing is created, and after a write error the partial file is
    removed again. *)
Theorem download_rejected_leaves_no_file (fuel : nat) (url : string)
        (fs : list string) (error : string) (fs' : list string) :
  download path_extname path_basename path_join homedir https_get write_error fuel url fs
  = Some (Rejected error, fs') ->
  fs' = fs.
Proof. intros H. exact (download_settles_as fuel url fs (Rejected error) fs' H). Qed.

(** X9: redirects are followed without a bound: when every URL reachable
    from [url] answers 301 or 302, the download never settles, whatever the
    fuel. *)
Theorem download_redirect_loop (reachable : string -> Prop) (url : string)
        (fs : list string) (fuel : nat) :
  reachable url ->
  (forall u, reachable u ->
     (statusCode (https_get u) = 301 \/ statusCode (https_get u) = 302)
     /\ reachable (location (https_get u))) ->
  download_ fuel url fs = None.
Proof.
  intros Hurl Hclosed. revert url Hurl.
  induction fuel as [|fuel IH]; intros url Hurl; simpl; [reflexivity|].
  destruct (Hclosed url Hurl) as [[H|H] Hnext]; rewrite H; simpl; apply IH, Hnext.
Qed.



End DownloadInvariants.

Lemma download_never_overwrites_witness :
  ~ In "/home/user/Downloads/report-1.pdf"
       ["/home/user/Downloads/report.pdf"; "/home/user/Downloads"]
  /\ ["/home/user/Downloads/report-1.pdf";
      "/home/user/Downloads/report.pdf"; "/home/user/Downloads"]
     = ["/home/user/Downloads/report-1.pdf";
        "/home/user/Downloads/report.pdf"; "/home/user/Downloads"].
Proof.
  exact (download_never_overwrites
           SampleHost.extname SampleHost.basename SampleHost.join SampleHost.homedir
           SampleHost.https_get SampleHost.write_error
           3 "https://host/report.pdf"
           ["/home/user/Downloads/report.pdf"; "/home/user/Downloads"]
           "/home/user/Downloads/report-1.pdf"
           ["/home/user/Downloads/report-1.pdf";
            "/home/user/Downloads/report.pdf"; "/home/user/Downloads"]
           eq_refl).
Defined.

(** A disk that refuses the write: the download is rejected with the
    message of the stream and no file stays behind. *)
Lemma download_rejected_leaves_no_file_witness :
  download SampleHost.extname SampleHost.basename SampleHost.join SampleHost.homedir
           SampleHost.https_get (fun _ => Some "EACCES")
           3 "https://host/report.pdf" ["/home/user/Downloads"]
  = Some (Rejected "EACCES", ["/home/user/Downloads"])
  /\ ["/home/user/Downloads"] = ["/home/user/Downloads"].
Proof.
  split; [reflexivity|].
  exact (download_rejected_leaves_no_file
           SampleHost.extname SampleHost.basename SampleHost.join SampleHost.homedir
           SampleHost.https_get (fun _ => Some "EACCES")
           3 "https://host/report.pdf" ["/home/user/Downloads"]
           "EACCES" ["/home/user/Downloads"] eq_refl).
Defined.

Lemma download_redirect_loop_witness :
  download SampleHost.extname SampleHost.basename SampleHost.join SampleHost.homedir
           redirecting_server SampleHost.write_error
           1000 "https://a" []
  = None.
Proof.
  apply (download_redirect_loop
           SampleHost.extname SampleHost.basename SampleHost.join SampleHost.homedir
           redirecting_server SampleHost.write_error
           (fun _ => True) "https://a" [] 1000).
  - exact I.
  - intros u _. split; [|exact I].
    unfold redirecting_server. destruct (String.eqb u "https://a"); simpl; auto.
Defined.


(* ================================================================= *)
(** ** Further properties of the loader *)

Lemma length_set_nth {A} (k : nat) (x : A) (l : list A) :
  List.length (set_nth k x l) = List.length l.
Proof.
  revert k; induction l as [|y l IH]; intros [|k]; simpl; auto.
Qed.

Lemma nth_error_set_nth {A} (k : nat) (x old : A) (l : list A) :
  nth_error l k = Some old -> nth_error (set_nth k x l) k = Some x.
Proof.
  revert k; induction l as [|y l IH]; intros [|k] H; simpl in *;
    try discriminate; auto.
Qed.

Lemma set_nth_twice {A} (k : nat) (x y : A) (l : list A) :
  set_nth k y (set_nth k x l) = set_nth k y l.
Proof.
  revert k; induction l as [|z l IH]; intros [|k]; simpl; auto.
  now rewrite IH.
Qed.

Lemma filter_length_set_nth (f : Load -> bool) (ls : list Load) (k : nat)
      (old new : Load) :
  nth_error ls k = Some old ->
  List.length (filter f (set_nth k new ls)) + Nat.b2n (f old)
  = List.length (filter f ls) + Nat.b2n (f new).
Proof.
  revert k; induction ls as [|l ls IH]; intros [|k] H; simpl in *; try discriminate.
  - injection H as ->. destruct (f old), (f new); simpl; lia.
  - specialize (IH k H). destruct (f l); simpl; lia.
Qed.

Lemma count_event_app (e : LoaderEvent) (a b : list LoaderEvent) :
  count_event e (a ++ b)%list = count_event e a + count_event e b.
Proof. unfold count_event. now rewrite filter_app, length_app. Qed.

Section LoaderInvariants.

Variable TreeNode : Type.
Variable sort_by_label : list TreeNode -> list TreeNode.
Variable message_node : string -> TreeNode.

Local Notation "'turn_'" := (turn sort_by_label message_node).
Local Notation "'run_'" := (run sort_by_label message_node).
Local Notation "'tick_'" := (@tick TreeNode).
Local Notation "'System_'" := (System TreeNode).

(** Each load has fired [LoadingStatusChanged] once, and once more when it
    has ended. *)
Lemma turn_keeps_status_changes (s : System_) (t : Turn TreeNode) :
  count_event LoadingStatusChanged (fired s) + running s
  = 2 * List.length (loads s) ->
  count_event LoadingStatusChanged (fired (turn_ s t)) + running (turn_ s t)
  = 2 * List.length (loads (turn_ s t)).
Proof.
  unfold running, count_running. intros Inv.
  destruct t as [|k rs|k e|k]; simpl.
  - unfold start. destruct (isLoading (loader s)); simpl; [exact Inv|].
    rewrite count_event_app, filter_app, !length_app. simpl.
    unfold count_event at 2. simpl. lia.
  - unfold resources_arrived.
    destruct (nth_error (loads s) k) as [l|] eqn:E; [|exact Inv].
    destruct rs as [|r rs]; [exact Inv|].
    destruct (finished l) eqn:F; [exact Inv|]. simpl.
    rewrite length_set_nth.
    pose proof (filter_length_set_nth (fun l => negb (finished l)) (loads s) k l
                  (mkLoad true (interval_set l) false) E) as C.
    simpl in C. rewrite F in C. simpl in C. lia.
  - unfold finish.
    destruct (nth_error (loads s) k) as [l|] eqn:E; [|exact Inv].
    destruct (finished l) eqn:F; [exact Inv|]. simpl.
    rewrite length_set_nth, count_event_app.
    unfold count_event at 2. simpl.
    pose proof (filter_length_set_nth (fun l => negb (finished l)) (loads s) k l
                  (mkLoad (newNodesAvailable l) (interval_set l) true) E) as C.
    simpl in C. rewrite F in C. simpl in C. lia.
  - unfold tick.
    destruct (nth_error (loads s) k) as [l|] eqn:E; [|exact Inv].
    destruct (interval_set l) eqn:I; [|exact Inv]. simpl.
    rewrite length_set_nth.
    pose proof (filter_length_set_nth (fun l => negb (finished l)) (loads s) k l
                  (mkLoad false (isLoading (loader s)) (finished l)) E) as C.
    simpl in C.
    assert (Hf : count_event LoadingStatusChanged
                   (if newNodesAvailable l
                    then (fired s ++ [NewResourcesAvailable])%list else fired s)
                 = count_event LoadingStatusChanged (fired s)).
    { destruct (newNodesAvailable l); [|reflexivity].
      rewrite count_event_app. unfold count_event at 2. simpl. lia. }
    rewrite Hf. lia.
Qed.

(** X11: whatever the event loop has run, [LoadingStatusChanged] was fired
    once for every load that started and once more for every load that
    ended: with the loads still in progress the count is twice the number
    of loads. *)
Theorem loader_status_changes_in_pairs (turns : list (Turn TreeNode)) :
  count_event LoadingStatusChanged (fired (run_ turns)) + running (run_ turns)
  = 2 * List.length (loads (run_ turns)).
Proof.
  unfold run.
  assert (G : forall (ts : list (Turn TreeNode)) (s : System_),
             count_event LoadingStatusChanged (fired s) + running s
             = 2 * List.length (loads s) ->
             count_event LoadingStatusChanged (fired (fold_left turn_ ts s))
             + running (fold_left turn_ ts s)
             = 2 * List.length (loads (fold_left turn_ ts s))).
  { induction ts as [|t ts IH]; intros s Inv; simpl; [exact Inv|].
    apply IH, turn_keeps_status_changes, Inv. }
  apply G. reflexivity.
Qed.

(** Once a load has started, the node list is defined and stays so. *)
Lemma turn_keeps_nodes_defined (s : System_) (t : Turn TreeNode) :
  nodes (loader s) <> None /\ loads s <> [] ->
  nodes (loader (turn_ s t)) <> None /\ loads (turn_ s t) <> [].
Proof.
  intros [Hn Hl].
  assert (Hset : forall k x, set_nth k x (loads s) <> []).
  { intros k x E. apply (f_equal (@List.length Load)) in E.
    rewrite length_set_nth in E. destruct (loads s); [contradiction|discriminate]. }
  destruct t as [|k rs|k e|k]; simpl.
  - unfold start. destruct (isLoading (loader s)); simpl; [auto|].
    split; [discriminate|]. destruct (loads s); discriminate.
  - unfold resources_arrived.
    destruct (nth_error (loads s) k) as [l|]; [|auto].
    destruct rs as [|r rs]; [auto|].
    destruct (finished l); [auto|]. simpl. split; [|apply Hset].
    destruct (nodes (loader s)); [discriminate|contradiction].
  - unfold finish.
    destruct (nth_error (loads s) k) as [l|]; [|auto].
    destruct (finished l); [auto|]. simpl. split; [|apply Hset].
    destruct e; [discriminate|exact Hn].
  - unfold tick.
    destruct (nth_error (loads s) k) as [l|]; [|auto].
    destruct (interval_set l); [|auto]. simpl. split; [exact Hn|apply Hset].
Qed.

Lemma fold_turn_keeps_nodes_defined (ts : list (Turn TreeNode)) (s : System_) :
  nodes (loader s) <> None /\ loads s <> [] ->
  nodes (loader (fold_left turn_ ts s)) <> None.
Proof.
  revert s; induction ts as [|t ts IH]; intros s H; simpl.
  - apply H.
  - apply IH, turn_keeps_nodes_defined, H.
Qed.

(** X12: the node list of the loader is undefined exactly until [start] is
    called for the first time; from then on [nodes] is a list, whatever
    happens to the loads. *)
Theorem loader_nodes_defined_after_start (turns : list (Turn TreeNode)) :
  nodes (loader (run_ turns)) = None <-> ~ In CallStart turns.
Proof.
  unfold run.
  induction turns as [|t ts IH]; simpl.
  - split; auto.
  - destruct t as [|k rs|k e|k].
    + split.
      * intros H. exfalso.
        apply (fold_turn_keeps_nodes_defined ts (start initial)); [|exact H].
        split; discriminate.
      * intros H. exfalso. apply H. now left.
    + replace (turn_ initial (ResourcesArrived k rs)) with (@initial TreeNode)
        by (simpl; unfold resources_arrived; destruct k; reflexivity).
      rewrite IH. split; intros H; [intros [D|D]; [discriminate|auto] | auto].
    + replace (turn_ initial (Finish k e)) with (@initial TreeNode)
        by (simpl; unfold finish; destruct k; reflexivity).
      rewrite IH. split; intros H; [intros [D|D]; [discriminate|auto] | auto].
    + replace (turn_ initial (Tick k)) with (@initial TreeNode)
        by (simpl; unfold tick; destruct k; reflexivity).
      rewrite IH. split; intros H; [intros [D|D]; [discriminate|auto] | auto].
Qed.

(** X13: the interval of a load clears itself: once loading has ended, the
    callback changes something at most once; a second run finds the interval
    cleared and does nothing. *)
Theorem loader_interval_clears_itself (s : System_) (k : nat) :
  isLoading (loader s) = false ->
  tick TreeNode k (tick TreeNode k s) = tick TreeNode k s.
Proof.
  intros L.
  destruct (nth_error (loads s) k) as [l|] eqn:E.
  - destruct (interval_set l) eqn:I.
    + assert (T : tick_ k s
                  = mkSystem (loader s)
                      (set_nth k (mkLoad false false (finished l)) (loads s))
                      (if newNodesAvailable l
                       then (fired s ++ [NewResourcesAvailable])%list
                       else fired s)).
      { unfold tick. rewrite E, I, L. reflexivity. }
      rewrite T. unfold tick. simpl.
      rewrite (nth_error_set_nth k _ l (loads s) E). reflexivity.
    + assert (T : tick_ k s = s) by (unfold tick; now rewrite E, I).
      now rewrite !T.
  - assert (T : tick_ k s = s) by (unfold tick; now rewrite E).
    now rewrite !T.
Qed.

(** A refresh event uses up the flag that an arrival of resources set. *)
Lemma turn_refresh_budget (s : System_) (t : Turn TreeNode) :
  count_event NewResourcesAvailable (fired (turn_ s t)) + refresh_due (loads (turn_ s t))
  <= count_event NewResourcesAvailable (fired s) + refresh_due (loads s)
     + arrivals [t].
Proof.
  unfold refresh_due, arrivals.
  destruct t as [|k rs|k e|k]; simpl.
  - unfold start. destruct (isLoading (loader s)); simpl; [lia|].
    rewrite count_event_app, filter_app, length_app.
    unfold count_event at 2. simpl. lia.
  - unfold resources_arrived.
    destruct (nth_error (loads s) k) as [l|] eqn:E; [|lia].
    destruct rs as [|r rs]; [lia|].
    destruct (finished l) eqn:F; [lia|]. simpl.
    pose proof (filter_length_set_nth newNodesAvailable (loads s) k l
                  (mkLoad true (interval_set l) false) E) as C.
    simpl in C. destruct (newNodesAvailable l); simpl in C; lia.
  - unfold finish.
    destruct (nth_error (loads s) k) as [l|] eqn:E; [|lia].
    destruct (finished l) eqn:F; [lia|]. simpl.
    rewrite count_event_app. unfold count_event at 2. simpl.
    pose proof (filter_length_set_nth newNodesAvailable (loads s) k l
                  (mkLoad (newNodesAvailable l) (interval_set l) true) E) as C.
    simpl in C. lia.
  - unfold tick.
    destruct (nth_error (loads s) k) as [l|] eqn:E; [|lia].
    destruct (interval_set l) eqn:I; [|lia]. simpl.
    pose proof (filter_length_set_nth newNodesAvailable (loads s) k l
                  (mkLoad false (isLoading (loader s)) (finished l)) E) as C.
    simpl in C. destruct (newNodesAvailable l); simpl in C.
    + rewrite count_event_app. unfold count_event at 2. simpl. lia.
    + lia.
Qed.

(** X14: refresh events are batched: [NewResourcesAvailable] is never fired
    more often than resources have arrived. *)
Theorem loader_refresh_events_bounded (turns : list (Turn TreeNode)) :
  count_event NewResourcesAvailable (fired (run_ turns)) <= arrivals turns.
Proof.
  unfold run.
  assert (G : forall (ts : list (Turn TreeNode)) (s : System_),
             count_event NewResourcesAvailable (fired (fold_left turn_ ts s))
             + refresh_due (loads (fold_left turn_ ts s))
             <= count_event NewResourcesAvailable (fired s) + refresh_due (loads s)
                + arrivals ts).
  { induction ts as [|t ts IH]; intros s; simpl; [unfold arrivals; simpl; lia|].
    specialize (IH (turn_ s t)).
    pose proof (turn_refresh_budget s t) as B.
    assert (A : arrivals (t :: ts) = arrivals [t] + arrivals ts).
    { unfold arrivals. simpl. destruct t; simpl; lia. }
    lia. }
  specialize (G turns initial).
  change (refresh_due (loads (@initial TreeNode))) with 0 in G.
  change (count_event NewResourcesAvailable (fired (@initial TreeNode))) with 0 in G.
  lia.
Qed.

End LoaderInvariants.

(** Two batches of resources between two ticks give one refresh event. *)
Example loader_batches_refresh :
  fired (run (fun l : list nat => l) (fun _ => 0)
           [CallStart; ResourcesArrived 0 [3]; ResourcesArrived 0 [4]; Tick 0; Tick 0])
  = [LoadingStatusChanged; NewResourcesAvailable].
Proof. reflexivity. Qed.

Lemma loader_interval_clears_itself_witness :
  tick nat 0 (tick nat 0 (run (fun l : list nat => l) (fun _ => 0)
                      [CallStart; ResourcesArrived 0 [3]; Finish 0 None]))
  = tick nat 0 (run (fun l : list nat => l) (fun _ => 0)
                  [CallStart; ResourcesArrived 0 [3]; Finish 0 None]).
Proof.
  apply (loader_interval_clears_itself nat
           (run (fun l : list nat => l) (fun _ => 0)
              [CallStart; ResourcesArrived 0 [3]; Finish 0 None]) 0).
  reflexivity.
Defined.

(* ================================================================= *)
(** ** What the validator accepts and what it reports *)

Lemma appends_id : appends (fun msgs => msgs).
Proof. intros msgs. now rewrite app_nil_r. Qed.

Lemma appends_push (x : string) : appends (fun msgs => push msgs x).
Proof. intros msgs. reflexivity. Qed.

Lemma appends_comp (F G : list string -> list string) :
  appends F -> appends G -> appends (fun msgs => G (F msgs)).
Proof.
  intros HF HG msgs. rewrite (HG (F msgs)), (HF msgs), (HG (F [])).
  now rewrite app_assoc.
Qed.

Lemma appends_if (b : bool) (F G : list string -> list string) :
  appends F -> appends G -> appends (fun msgs => if b then F msgs else G msgs).
Proof. intros HF HG. destruct b; assumption. Qed.

(** An appending operation returns the empty list only from the empty list,
    and only when it has nothing to append. *)
Lemma nil_from (F : list string -> list string) (P : Prop) :
  appends F -> (F [] = [] <-> P) ->
  forall msgs, F msgs = [] <-> msgs = [] /\ P.
Proof.
  intros HF HP msgs. rewrite (HF msgs), <- HP. split.
  - intros H. apply app_eq_nil in H. exact H.
  - intros [-> ->]. reflexivity.
Qed.

Lemma push_not_nil (msgs : list string) (x : string) : push msgs x = [] <-> False.
Proof.
  split; [|contradiction]. unfold push. intros H.
  apply app_eq_nil in H as [_ H]. discriminate.
Qed.

Lemma appends_fold_left {A} (f : list string -> A -> list string) (l : list A) :
  (forall x, appends (fun msgs => f msgs x)) ->
  appends (fun msgs => fold_left f l msgs).
Proof.
  intros Hf. induction l as [|x l IH]; simpl.
  - apply appends_id.
  - exact (appends_comp (fun m => f m x) (fun m => fold_left f l m) (Hf x) IH).
Qed.

Lemma fold_left_nil {A} (f : list string -> A -> list string) (l : list A)
      (msgs : list string) :
  (forall x, appends (fun m => f m x)) ->
  (fold_left f l msgs = [] <-> msgs = [] /\ forall x, In x l -> f [] x = []).
Proof.
  intros Hf. revert msgs. induction l as [|x l IH]; intros msgs; simpl.
  - split; [intros ->; split; [reflexivity | intros x []] | intros [-> _]; reflexivity].
  - rewrite IH. rewrite (Hf x msgs). split.
    + intros [H1 H2]. apply app_eq_nil in H1 as [-> H1]. split; [reflexivity|].
      intros y [<-|Hy]; auto.
    + intros [-> H]. split.
      * simpl. apply H. now left.
      * intros y Hy. apply H. now right.
Qed.

Lemma appends_forEach_indexed_from {A}
      (body : A -> nat -> list string -> list string) (xs : list A) (n : nat) :
  (forall x k, appends (body x k)) ->
  appends (fun msgs =>
             snd (fold_left (fun st x => (fst st + 1, body x (fst st) (snd st)))
                            xs (n, msgs))).
Proof.
  intros Hb. revert n. induction xs as [|x xs IH]; intros n; simpl.
  - apply appends_id.
  - exact (appends_comp (body x n) _ (Hb x n) (IH (n + 1))).
Qed.

Lemma appends_forEach_indexed {A}
      (body : A -> nat -> list string -> list string) (xs : list A) :
  (forall x k, appends (body x k)) -> appends (forEach_indexed body xs).
Proof. intros Hb. exact (appends_forEach_indexed_from body xs 1 Hb). Qed.

Lemma forEach_indexed_from_nil {A} (body : A -> nat -> list string -> list string)
      (p : A -> bool) (xs : list A) (n : nat) (msgs : list string) :
  (forall x k, appends (body x k)) ->
  (forall x k, body x k [] = [] <-> p x = true) ->
  (snd (fold_left (fun st x => (fst st + 1, body x (fst st) (snd st))) xs (n, msgs))
   = [] <-> msgs = [] /\ forallb p xs = true).
Proof.
  intros Hb Hp. revert msgs n.
  induction xs as [|x xs IH]; intros msgs n; simpl.
  - split; [intros ->; auto | intros [-> _]; reflexivity].
  - rewrite IH. rewrite (Hb x n msgs), andb_true_iff, <- (Hp x n). split.
    + intros [H1 H2]. apply app_eq_nil in H1 as [-> H1]. auto.
    + intros [-> [H1 H2]]. rewrite H1. auto.
Qed.

(** A loop whose body, at every position, pushes nothing exactly for the
    elements [p] accepts returns the empty list exactly from the empty list
    on a list [p] accepts throughout. *)
Lemma forEach_indexed_nil {A} (body : A -> nat -> list string -> list string)
      (p : A -> bool) (xs : list A) (msgs : list string) :
  (forall x k, appends (body x k)) ->
  (forall x k, body x k [] = [] <-> p x = true) ->
  (forEach_indexed body xs msgs = [] <-> msgs = [] /\ forallb p xs = true).
Proof. intros Hb Hp. apply (forEach_indexed_from_nil body p xs 1 msgs Hb Hp). Qed.

Lemma appends_validateNameDisplayName (name displayName type positionInfo : string) :
  appends (validateNameDisplayName name displayName type positionInfo).
Proof.
  unfold validateNameDisplayName. intros msgs.
  destruct (negb (JS.truthy name)), (negb (JS.truthy displayName));
    unfold push; simpl; rewrite <- ?app_assoc, ?app_nil_r; reflexivity.
Qed.

Lemma validateNameDisplayName_nil (name displayName type positionInfo : string)
      (msgs : list string) :
  validateNameDisplayName name displayName type positionInfo msgs = []
  <-> msgs = [] /\ JS.truthy name && JS.truthy displayName = true.
Proof.
  apply nil_from; [apply appends_validateNameDisplayName|].
  unfold validateNameDisplayName.
  destruct (JS.truthy name), (JS.truthy displayName); simpl;
    split; intros H; try reflexivity; discriminate.
Qed.

Lemma appends_validateUniqueValues (values : list OptionValue) (positionInfo : string) :
  appends (validateUniqueValues values positionInfo).
Proof.
  unfold validateUniqueValues. apply appends_fold_left. intros i.
  apply appends_if; [|apply appends_id].
  apply appends_if; [apply appends_push | apply appends_id].
Qed.

(** No value conflicts with a later one. *)
Lemma no_conflicts_pairs (values : list OptionValue) :
  no_conflicts values = true <->
  forall i j vi vj, i < j -> nth_error values i = Some vi ->
                    nth_error values j = Some vj ->
                    same_name_or_displayName vi vj = false.
Proof.
  induction values as [|v rest IH]; simpl.
  - split; auto. intros _ i j vi vj _ Hi. destruct i; discriminate.
  - rewrite andb_true_iff, forallb_forall, IH. split.
    + intros [Hv Hrest] i j vi vj Hij Hi Hj.
      destruct j as [|j]; [lia|]. simpl in Hj.
      destruct i as [|i]; simpl in Hi.
      * injection Hi as <-. apply negb_true_iff, Hv.
        eapply nth_error_In; eassumption.
      * apply (Hrest i j vi vj); [lia | assumption | assumption].
    + intros H. split.
      * intros w Hw. apply In_nth_error in Hw as [j Hj].
        apply negb_true_iff. apply (H 0 (S j) v w); [lia | reflexivity | exact Hj].
      * intros i j vi vj Hij Hi Hj.
        apply (H (S i) (S j) vi vj); [lia | exact Hi | exact Hj].
Qed.

Lemma dupePositions_nil (values : list OptionValue) (i : nat) (vi : OptionValue) :
  nth_error values i = Some vi ->
  (dupePositions values i = [] <->
   forall j vj, i < j -> nth_error values j = Some vj ->
                same_name_or_displayName vi vj = false).
Proof.
  intros Hi. split.
  - intros E j vj Hij Hj.
    destruct (same_name_or_displayName vi vj) eqn:S; [|reflexivity].
    assert (Hin : In (j + 1) (dupePositions values i)).
    { apply (dupePositions_In values i vi (j + 1) Hi). exists j, vj.
      repeat split; auto. now apply same_name_or_displayName_iff. }
    rewrite E in Hin. contradiction.
  - intros H. destruct (dupePositions values i) as [|k ks] eqn:E; [reflexivity|].
    assert (Hin : In k (dupePositions values i)) by (rewrite E; now left).
    apply (dupePositions_In values i vi k Hi) in Hin as (j & vj & Hij & Hj & _ & S).
    apply same_name_or_displayName_iff in S. rewrite (H j vj Hij Hj) in S. discriminate.
Qed.

(** On values that all have a name and a display name, the uniqueness check
    pushes nothing exactly when no two values are in conflict. *)
Lemma validateUniqueValues_nil (values : list OptionValue) (positionInfo : string)
      (msgs : list string) :
  forallb valid_value values = true ->
  (validateUniqueValues values positionInfo msgs = []
   <-> msgs = [] /\ no_conflicts values = true).
Proof.
  intros Hvalid. unfold validateUniqueValues.
  rewrite fold_left_nil.
  2:{ intros i. apply appends_if; [|apply appends_id].
      apply appends_if; [apply appends_push | apply appends_id]. }
  rewrite no_conflicts_pairs. rewrite forallb_forall in Hvalid.
  apply and_iff_compat_l. split.
  - intros H i j vi vj Hij Hi Hj.
    assert (Hlt : i < List.length values) by (apply nth_error_Some; congruence).
    specialize (H i ltac:(apply in_seq; lia)).
    rewrite (value_at_nth_error values i vi Hi) in H.
    specialize (Hvalid vi (nth_error_In _ _ Hi)). unfold valid_value in Hvalid.
    rewrite Hvalid in H.
    destruct (dupePositions values i) as [|d ds] eqn:E.
    + apply (proj1 (dupePositions_nil values i vi Hi) E j vj Hij Hj).
    + simpl in H. unfold push in H. discriminate.
  - intros H i Hi. apply in_seq in Hi.
    destruct (nth_error values i) as [vi|] eqn:E;
      [|apply nth_error_None in E; lia].
    rewrite (value_at_nth_error values i vi E).
    destruct (JS.truthy (value_name vi) && JS.truthy (value_displayName vi));
      [|reflexivity].
    assert (D : dupePositions values i = []).
    { apply (dupePositions_nil values i vi E). intros j vj Hij Hj.
      apply (H i j vi vj Hij E Hj). }
    rewrite D. reflexivity.
Qed.

Lemma push_app (a b : list string) (x : string) :
  push (a ++ b)%list x = (a ++ push b x)%list.
Proof. unfold push. now rewrite app_assoc. Qed.

Lemma appends_of_app (F : list string -> list string) :
  (forall a b, F (a ++ b)%list = (a ++ F b)%list) -> appends F.
Proof. intros H msgs. rewrite <- (H msgs []). now rewrite app_nil_r. Qed.

Lemma validateNameDisplayName_app (name displayName type positionInfo : string)
      (a b : list string) :
  validateNameDisplayName name displayName type positionInfo (a ++ b)%list
  = (a ++ validateNameDisplayName name displayName type positionInfo b)%list.
Proof.
  unfold validateNameDisplayName.
  destruct (negb (JS.truthy name)), (negb (JS.truthy displayName));
    rewrite ?push_app; reflexivity.
Qed.

Lemma fold_left_app_acc {A} (f : list string -> A -> list string) (l : list A) :
  (forall x a b, f (a ++ b)%list x = (a ++ f b x)%list) ->
  forall a b, fold_left f l (a ++ b)%list = (a ++ fold_left f l b)%list.
Proof.
  intros Hf. induction l as [|x l IH]; intros a b; simpl; [reflexivity|].
  now rewrite Hf, IH.
Qed.

Lemma forEach_indexed_app {A} (body : A -> nat -> list string -> list string)
      (xs : list A) :
  (forall x k a b, body x k (a ++ b)%list = (a ++ body x k b)%list) ->
  forall a b, forEach_indexed body xs (a ++ b)%list
              = (a ++ forEach_indexed body xs b)%list.
Proof.
  intros Hb. unfold forEach_indexed. generalize 1 at 2 4 as n.
  induction xs as [|x xs IH]; intros n a b; simpl; [reflexivity|].
  now rewrite Hb, IH.
Qed.

Lemma validateUniqueValues_app (values : list OptionValue) (positionInfo : string)
      (a b : list string) :
  validateUniqueValues values positionInfo (a ++ b)%list
  = (a ++ validateUniqueValues values positionInfo b)%list.
Proof.
  unfold validateUniqueValues. apply fold_left_app_acc.
  intros i a' b'.
  destruct (JS.truthy _ && JS.truthy _); [|reflexivity].
  destruct (negb _); [apply push_app | reflexivity].
Qed.

Section ValidatorAccepts.

Variable Tool : Type.
Variable getToolByName : string -> option Tool.

Lemma validateResourceTypeOption_app (option : ResourceTypeOption)
      (positionInfo : string) (a b : list string) :
  validateResourceTypeOption option positionInfo (a ++ b)%list
  = (a ++ validateResourceTypeOption option positionInfo b)%list.
Proof.
  unfold validateResourceTypeOption.
  rewrite validateNameDisplayName_app.
  destruct (List.length (opt_values option) =? 0)%nat.
  - apply push_app.
  - rewrite forEach_indexed_app, validateUniqueValues_app; [reflexivity|].
    intros v k a' b'. apply validateNameDisplayName_app.
Qed.

Lemma appends_validateResourceTypeOption (option : ResourceTypeOption)
      (positionInfo : string) :
  appends (validateResourceTypeOption option positionInfo).
Proof. apply appends_of_app, validateResourceTypeOption_app. Qed.

Lemma validateResourceTypeOption_nil (option : ResourceTypeOption)
      (positionInfo : string) (msgs : list string) :
  validateResourceTypeOption option positionInfo msgs = []
  <-> msgs = [] /\ valid_option option = true.
Proof.
  unfold validateResourceTypeOption, valid_option.
  rewrite !andb_true_iff.
  destruct (List.length (opt_values option) =? 0)%nat eqn:L; simpl.
  - rewrite push_not_nil. split; [contradiction|].
    intros [_ [[[_ H] _] _]]. discriminate.
  - split.
    + intros H.
      rewrite (appends_validateUniqueValues (opt_values option) positionInfo) in H.
      apply app_eq_nil in H as [Hx Hu].
      apply (forEach_indexed_nil _ valid_value) in Hx as [Hn Hv].
      2:{ intros v k. apply appends_validateNameDisplayName. }
      2:{ intros v k. rewrite validateNameDisplayName_nil. unfold valid_value. tauto. }
      apply validateNameDisplayName_nil in Hn as [-> Hn].
      apply andb_true_iff in Hn as [Hn Hd].
      apply (validateUniqueValues_nil _ positionInfo [] Hv) in Hu as [_ Hu].
      repeat split; auto.
    + intros [-> [[[[Hn Hd] _] Hv] Hu]].
      apply (validateUniqueValues_nil _ positionInfo _ Hv). split; [|exact Hu].
      apply (forEach_indexed_nil _ valid_value).
      * intros v k. apply appends_validateNameDisplayName.
      * intros v k. rewrite validateNameDisplayName_nil. unfold valid_value. tauto.
      * split; [|exact Hv]. apply validateNameDisplayName_nil.
        split; [reflexivity|]. now rewrite Hn, Hd.
Qed.

Lemma validateProviders_app (resourceType : ResourceType) (positionInfo : string)
      (a b : list string) :
  validateProviders Tool getToolByName resourceType positionInfo (a ++ b)%list
  = (a ++ validateProviders Tool getToolByName resourceType positionInfo b)%list.
Proof.
  unfold validateProviders.
  destruct (List.length (rt_providers resourceType) =? 0)%nat; [apply push_app|].
  apply forEach_indexed_app. intros p k a' b'.
  destruct (negb (recognized_provider p)); rewrite ?push_app;
    apply fold_left_app_acc; intros tool a'' b'';
    (destruct (negb (is_some _)); [apply push_app | reflexivity]).
Qed.

Lemma appends_validateProviders (resourceType : ResourceType) (positionInfo : string) :
  appends (validateProviders Tool getToolByName resourceType positionInfo).
Proof. apply appends_of_app, validateProviders_app. Qed.

(** The body of the loop over the providers appends. *)
Lemma appends_provider_body (positionInfo : string) (provider : DeploymentProvider)
      (providerIndex : nat) :
  appends (fun msgs =>
    fold_left
      (fun m tool =>
         if negb (is_some (getToolByName (tool_name tool)))
         then push m ("The tool is not supported: " ++ tool_name tool ++ ", "
                      ++ (positionInfo ++ ", provider index: "
                          ++ JS.number_to_string providerIndex ++ " ") ++ " ")
         else m)
      (requiredTools provider)
      (if negb (recognized_provider provider)
       then push msgs ("No deployment method defined for the provider, "
                       ++ (positionInfo ++ ", provider index: "
                           ++ JS.number_to_string providerIndex ++ " "))
       else msgs)).
Proof.
  apply appends_of_app. intros a b.
  destruct (negb (recognized_provider provider)); rewrite ?push_app;
    apply fold_left_app_acc; intros tool a' b';
    (destruct (negb (is_some _)); [apply push_app | reflexivity]).
Qed.

Lemma validateProviders_nil (resourceType : ResourceType) (positionInfo : string)
      (msgs : list string) :
  validateProviders Tool getToolByName resourceType positionInfo msgs = []
  <-> msgs = []
      /\ negb (List.length (rt_providers resourceType) =? 0)%nat
         && forallb (valid_provider Tool getToolByName) (rt_providers resourceType)
         = true.
Proof.
  unfold validateProviders.
  destruct (List.length (rt_providers resourceType) =? 0)%nat; simpl.
  - rewrite push_not_nil. split; [contradiction | intros [_ H]; discriminate].
  - apply forEach_indexed_nil.
    + intros p k. apply appends_provider_body.
    + intros p k. unfold valid_provider.
      rewrite fold_left_nil.
      2:{ intros tool. apply appends_if; [apply appends_push | apply appends_id]. }
      rewrite andb_true_iff, forallb_forall. split.
      * intros [Hr Ht]. split.
        -- destruct (recognized_provider p); [reflexivity|].
           simpl in Hr. apply push_not_nil in Hr. contradiction.
        -- intros tool Hin. specialize (Ht tool Hin).
           destruct (is_some (getToolByName (tool_name tool)));
             [reflexivity|discriminate].
      * intros [Hr Ht]. split.
        -- rewrite Hr. reflexivity.
        -- intros tool Hin. rewrite (Ht tool Hin). reflexivity.
Qed.

Lemma validateResourceType_app (resourceType : ResourceType) (positionInfo : string)
      (a b : list string) :
  validateResourceType Tool getToolByName resourceType positionInfo (a ++ b)%list
  = (a ++ validateResourceType Tool getToolByName resourceType positionInfo b)%list.
Proof.
  unfold validateResourceType.
  rewrite validateNameDisplayName_app.
  destruct (negb (icon_ok (rt_icon resourceType))); rewrite ?push_app;
    (rewrite forEach_indexed_app, validateProviders_app; [reflexivity|]);
    intros o k a' b'; apply validateResourceTypeOption_app.
Qed.

Lemma appends_validateResourceType (resourceType : ResourceType)
      (positionInfo : string) :
  appends (validateResourceType Tool getToolByName resourceType positionInfo).
Proof. apply appends_of_app, validateResourceType_app. Qed.

Lemma validateResourceType_nil (resourceType : ResourceType) (positionInfo : string)
      (msgs : list string) :
  validateResourceType Tool getToolByName resourceType positionInfo msgs = []
  <-> msgs = [] /\ valid_resource_type Tool getToolByName resourceType = true.
Proof.
  unfold validateResourceType, valid_resource_type.
  rewrite validateProviders_nil.
  rewrite (forEach_indexed_nil _ valid_option).
  2:{ intros o k. apply appends_validateResourceTypeOption. }
  2:{ intros o k. rewrite validateResourceTypeOption_nil. tauto. }
  rewrite !andb_true_iff.
  destruct (icon_ok (rt_icon resourceType)); simpl.
  - rewrite validateNameDisplayName_nil, andb_true_iff. tauto.
  - rewrite push_not_nil. split; [tauto|].
    intros [_ [[[[_ H] _] _] _]]. discriminate.
Qed.

(** X15: [validateResourceTypes] returns no error message exactly when the
    list is not empty and every resource type has a name, a display name and
    both icons, every option has a name, a display name and at least one
    value, every value has a name and a display name and shares neither with
    another value of its option, and there is at least one provider, each of
    a recognized shape and with required tools that the tools service
    knows. *)
Theorem validateResourceTypes_accepts (resourceTypes : list ResourceType) :
  validateResourceTypes Tool getToolByName resourceTypes = []
  <-> resourceTypes <> []
      /\ forallb (valid_resource_type Tool getToolByName) resourceTypes = true.
Proof.
  unfold validateResourceTypes.
  destruct resourceTypes as [|rt rts].
  - simpl. split; [discriminate | intros [H _]; contradiction].
  - cbn [List.length Nat.eqb].
    rewrite (forEach_indexed_nil _ (valid_resource_type Tool getToolByName)).
    + split; [intros [_ H]; split; [discriminate | exact H] | intros [_ H]; auto].
    + intros x k. apply appends_validateResourceType.
    + intros x k. rewrite validateResourceType_nil. tauto.
Qed.

(** X16: a required tool that the tools service does not know is reported,
    with the name of the tool and the positions of the resource type and of
    the provider. *)
Theorem validateResourceTypes_reports_unknown_tool
        (resourceTypes : list ResourceType) (r p : nat)
        (resourceType : ResourceType) (provider : DeploymentProvider)
        (tool : ToolRequirementInfo) :
  nth_error resourceTypes r = Some resourceType ->
  nth_error (rt_providers resourceType) p = Some provider ->
  In tool (requiredTools provider) ->
  getToolByName (tool_name tool) = None ->
  In ("The tool is not supported: " ++ tool_name tool ++ ", "
      ++ ("resource type index: " ++ JS.number_to_string (r + 1)
          ++ ", provider index: " ++ JS.number_to_string (p + 1) ++ " ") ++ " ")
     (validateResourceTypes Tool getToolByName resourceTypes).
Proof.
  intros Hr Hp Hin Hnone. unfold validateResourceTypes.
  assert (Hlen : (List.length resourceTypes =? 0)%nat = false).
  { apply Nat.eqb_neq.
    assert (r < List.length resourceTypes) by (apply nth_error_Some; congruence). lia. }
  rewrite Hlen.
  apply forEach_indexed_In with (k := r) (x := resourceType); [| exact Hr |].
  - intros rt k. apply validateResourceType_keeps.
  - intros acc. unfold validateResourceType, validateProviders.
    assert (Hlen' : (List.length (rt_providers resourceType) =? 0)%nat = false).
    { apply Nat.eqb_neq.
      assert (p < List.length (rt_providers resourceType))
        by (apply nth_error_Some; congruence). lia. }
    rewrite Hlen'.
    apply forEach_indexed_In with (k := p) (x := provider); [| exact Hp |].
    + intros q k msgs m H. apply fold_left_keeps.
      * intros t msgs' m' H'.
        destruct (negb (is_some _)); [apply push_keeps|]; exact H'.
      * destruct (negb (recognized_provider q)); [apply push_keeps|]; exact H.
    + intros acc'. apply fold_left_In with (x := tool); [| exact Hin |].
      * intros t msgs' m' H'.
        destruct (negb (is_some _)); [apply push_keeps|]; exact H'.
      * intros acc''. rewrite Hnone. cbn [is_some negb].
        match goal with |- In ?a (push _ ?b) => replace a with b; [apply push_In|] end.
        now rewrite !append_assoc.
Qed.

(** X17: a provider that carries none of the nine payloads is reported as
    having no deployment method, with the positions of the resource type and
    of the provider. *)
Theorem validateResourceTypes_reports_unrecognized_provider
        (resourceTypes : list ResourceType) (r p : nat)
        (resourceType : ResourceType) (provider : DeploymentProvider) :
  nth_error resourceTypes r = Some resourceType ->
  nth_error (rt_providers resourceType) p = Some provider ->
  recognized_provider provider = false ->
  In ("No deployment method defined for the provider, "
      ++ ("resource type index: " ++ JS.number_to_string (r + 1)
          ++ ", provider index: " ++ JS.number_to_string (p + 1) ++ " "))
     (validateResourceTypes Tool getToolByName resourceTypes).
Proof.
  intros Hr Hp Hrec. unfold validateResourceTypes.
  assert (Hlen : (List.length resourceTypes =? 0)%nat = false).
  { apply Nat.eqb_neq.
    assert (r < List.length resourceTypes) by (apply nth_error_Some; congruence). lia. }
  rewrite Hlen.
  apply forEach_indexed_In with (k := r) (x := resourceType); [| exact Hr |].
  - intros rt k. apply validateResourceType_keeps.
  - intros acc. unfold validateResourceType, validateProviders.
    assert (Hlen' : (List.length (rt_providers resourceType) =? 0)%nat = false).
    { apply Nat.eqb_neq.
      assert (p < List.length (rt_providers resourceType))
        by (apply nth_error_Some; congruence). lia. }
    rewrite Hlen'.
    apply forEach_indexed_In with (k := p) (x := provider); [| exact Hp |].
    + intros q k msgs m H. apply fold_left_keeps.
      * intros t msgs' m' H'.
        destruct (negb (is_some _)); [apply push_keeps|]; exact H'.
      * destruct (negb (recognized_provider q)); [apply push_keeps|]; exact H.
    + intros acc'. apply fold_left_keeps.
      * intros t msgs' m' H'.
        destruct (negb (is_some _)); [apply push_keeps|]; exact H'.
      * rewrite Hrec. cbn [negb].
        match goal with |- In ?a (push _ ?b) => replace a with b; [apply push_In|] end.
        now rewrite !append_assoc.
Qed.

End ValidatorAccepts.

Lemma validateResourceTypes_reports_unknown_tool_witness :
  In "The tool is not supported: azdata, resource type index: 1, provider index: 1  "
     (validateResourceTypes unit sample_tools
        [mkResourceType "rt" "Resource" (Some (mkIcon "d.svg" "l.svg")) []
           [mkProvider None [mkTool "kubectl"; mkTool "azdata"]
                       None None None None None None (Some "cmd") None None]
           None]).
Proof.
  apply (validateResourceTypes_reports_unknown_tool unit sample_tools
           [mkResourceType "rt" "Resource" (Some (mkIcon "d.svg" "l.svg")) []
              [mkProvider None [mkTool "kubectl"; mkTool "azdata"]
                          None None None None None None (Some "cmd") None None]
              None]
           0 0 _ _ (mkTool "azdata") eq_refl eq_refl).
  - right. now left.
  - reflexivity.
Defined.

Lemma validateResourceTypes_reports_unrecognized_provider_witness :
  In "No deployment method defined for the provider, resource type index: 1, provider index: 2 "
     (validateResourceTypes unit sample_tools
        [mkResourceType "rt" "Resource" (Some (mkIcon "d.svg" "l.svg")) []
           [mkProvider None [] None None None None None None (Some "cmd") None None;
            bare_provider (Some "a=1")]
           None]).
Proof.
  apply (validateResourceTypes_reports_unrecognized_provider unit sample_tools
           [mkResourceType "rt" "Resource" (Some (mkIcon "d.svg" "l.svg")) []
              [mkProvider None [] None None None None None None (Some "cmd") None None;
               bare_provider (Some "a=1")]
              None]
           0 1 _ _ eq_refl eq_refl).
  reflexivity.
Defined.

(** A well-formed contribution passes, and the same one with a value that
    repeats a display name does not. *)
Example validate_accepts_and_rejects :
  validateResourceTypes unit sample_tools
    [mkResourceType "rt" "Resource" (Some (mkIcon "d.svg" "l.svg"))
       [mkOption "opt" "Option" [mkValue "x" "X"; mkValue "y" "Y"]]
       [mkProvider None [mkTool "kubectl"]
                   None None None None None None (Some "cmd") None None]
       None] = []
  /\
  validateResourceTypes unit sample_tools
    [mkResourceType "rt" "Resource" (Some (mkIcon "d.svg" "l.svg"))
       [mkOption "opt" "Option" [mkValue "x" "X"; mkValue "y" "X"]]
       [mkProvider None [mkTool "kubectl"]
                   None None None None None None (Some "cmd") None None]
       None] <> [].
Proof. split; [reflexivity | discriminate]. Qed.

(* ================================================================= *)
(** ** The registry *)

Section RegistryFacts.

Variable path_join : string -> string -> string.

Local Notation "'update_provider_'" := (update_provider path_join).
Local Notation "'updatePathProperties_'" := (updatePathProperties path_join).
Local Notation "'updateNotebookPath_'" := (updateNotebookPath path_join).

(** Rewriting the paths of a provider leaves its [when] clause alone. *)
Lemma update_provider_when (extensionPath : string) (p : DeploymentProvider) :
  when (update_provider_ extensionPath p) = when p.
Proof.
  unfold update_provider.
  destruct (instanceOfNotebookDeploymentProvider (Some p)).
  { destruct (updateNotebookPath _ _ _); reflexivity. }
  destruct (instanceOfDialogDeploymentProvider (Some p)
            && instanceOfNotebookBasedDialogInfo (dialog p)); [reflexivity|].
  destruct (is_some (bdcWizard p)); [reflexivity|].
  destruct (is_some (notebookWizard p)); [reflexivity|].
  destruct (is_some (azureSQLVMWizard p)); [reflexivity|].
  destruct (is_some (azureSQLDBWizard p)); reflexivity.
Qed.

Lemma getProvider_loop_map (f : DeploymentProvider -> DeploymentProvider)
      (providers : list DeploymentProvider) (selected : list SelectedOption)
      (remaining i : nat) :
  (forall p, when (f p) = when p) ->
  getProvider_loop (map f providers) selected remaining i
  = option_map f (getProvider_loop providers selected remaining i).
Proof.
  intros Hf. revert i. induction remaining as [|n IH]; intros i; simpl.
  - reflexivity.
  - rewrite nth_error_map. destruct (nth_error providers i) as [p|]; simpl.
    + rewrite Hf. destruct (processWhenClause (when p) selected); [reflexivity|].
      apply IH.
    + reflexivity.
Qed.

(** X18: rewriting the paths does not change which provider is selected:
    on the rewritten resource type [getProvider] returns the rewritten form
    of the provider it returns on the contributed one, for every selection. *)
Theorem getProvider_after_updatePathProperties
        (resourceType rewritten : ResourceType) (extensionPath : string)
        (selected : list SelectedOption) :
  updatePathProperties_ resourceType extensionPath = Some rewritten ->
  getProvider rewritten selected
  = option_map (update_provider_ extensionPath) (getProvider resourceType selected).
Proof.
  unfold updatePathProperties. destruct (rt_icon resourceType); [|discriminate].
  intros [= <-]. unfold getProvider. simpl. rewrite length_map.
  apply getProvider_loop_map. intros p. apply update_provider_when.
Qed.

(** X19: in a per-platform notebook object [updateNotebookPath] never
    rewrites [win32] nor [linux]: if the property is still an object
    afterwards, both fields hold their contributed values and [linux] was
    empty or missing; otherwise the property has become the joined [linux]
    path. *)
Theorem updateNotebookPath_platform_fields (extensionPath : string)
        (p : NotebookPathInfo) :
  (exists p', updateNotebookPath_ (Some (mkHolder (Some (NbPathInfo p)))) extensionPath
              = Some (mkHolder (Some (NbPathInfo p')))
              /\ win32 p' = win32 p /\ linux p' = linux p
              /\ JS.truthy_opt (linux p) = false)
  \/
  (exists l, linux p = Some l /\ JS.truthy l = true
             /\ updateNotebookPath_ (Some (mkHolder (Some (NbPathInfo p)))) extensionPath
                = Some (mkHolder (Some (NbString (path_join extensionPath l))))).
Proof.
  unfold updateNotebookPath. simpl.
  assert (Hw : win32 (update_win32 path_join extensionPath
                        (update_darwin path_join extensionPath p)) = win32 p).
  { unfold update_win32, update_darwin. destruct p as [[w|] [d|] l]; simpl;
      repeat match goal with |- context [JS.truthy ?x] => destruct (JS.truthy x); simpl end;
      reflexivity. }
  assert (Hl : linux (update_win32 path_join extensionPath
                        (update_darwin path_join extensionPath p)) = linux p).
  { unfold update_win32, update_darwin. destruct p as [[w|] [d|] l]; simpl;
      repeat match goal with |- context [JS.truthy ?x] => destruct (JS.truthy x); simpl end;
      reflexivity. }
  unfold update_linux. rewrite Hl.
  destruct (linux p) as [l|] eqn:El.
  - destruct (JS.truthy l) eqn:T.
    + right. exists l. auto.
    + left. exists (update_win32 path_join extensionPath
                      (update_darwin path_join extensionPath p)).
      split; [reflexivity|]. split; [exact Hw|]. split; [now rewrite Hl|exact T].
  - left. exists (update_win32 path_join extensionPath
                    (update_darwin path_join extensionPath p)).
    split; [reflexivity|]. split; [exact Hw|]. split; [now rewrite Hl|reflexivity].
Qed.

Lemma load_types_all (extensionPath : string) (types cache : list Contributed) :
  forallb has_icon types = true ->
  load_types path_join extensionPath types cache
  = ((cache ++ map (rewrite_contributed path_join extensionPath) types)%list, true).
Proof.
  revert cache. induction types as [|t types IH]; intros cache H; simpl.
  - now rewrite app_nil_r.
  - apply andb_true_iff in H as [Ht H]. unfold has_icon in Ht.
    unfold rewrite_contributed at 1. unfold updatePathProperties.
    destruct (rt_icon (ct_type t)); [|discriminate].
    rewrite (IH _ H), <- app_assoc. reflexivity.
Qed.

Lemma load_extensions_all (extensions : list Extension) (cache : list Contributed) :
  forallb (fun e => forallb has_icon (contributed_by e)) extensions = true ->
  load_extensions path_join extensions cache
  = ((cache ++ all_rewritten path_join extensions)%list, true).
Proof.
  revert cache. induction extensions as [|e es IH]; intros cache H; simpl.
  - now rewrite app_nil_r.
  - apply andb_true_iff in H as [He H]. unfold contributed_by in *.
    destruct (resourceDeploymentTypes e) as [types|]; simpl.
    + rewrite (load_types_all _ _ _ He), (IH _ H), <- app_assoc. reflexivity.
    + apply IH, H.
Qed.

(** X20: when every contributed resource type has an icon, the first call of
    [getResourceTypes] without the platform filter returns the contributions
    of all extensions, in the order of the extensions and of their
    declaration, each with its paths joined to the path of its own
    extension, and keeps them as the cache. *)
Theorem getResourceTypes_loads_all (extensions : list Extension) (platform : string) :
  forallb (fun e => forallb has_icon (contributed_by e)) extensions = true ->
  getResourceTypes path_join [] extensions platform false
  = (all_rewritten path_join extensions, Some (all_rewritten path_join extensions)).
Proof.
  intros H. unfold getResourceTypes. simpl.
  now rewrite (load_extensions_all extensions [] H).
Qed.

Lemma load_types_throws (extensionPath : string) (good rest cache : list Contributed)
      (bad : Contributed) :
  forallb has_icon good = true ->
  has_icon bad = false ->
  load_types path_join extensionPath (good ++ bad :: rest)%list cache
  = ((cache ++ map (rewrite_contributed path_join extensionPath) good)%list, false).
Proof.
  revert cache. induction good as [|t good IH]; intros cache Hg Hb; simpl.
  - unfold has_icon in Hb. unfold updatePathProperties.
    destruct (rt_icon (ct_type bad)); [discriminate|]. now rewrite app_nil_r.
  - apply andb_true_iff in Hg as [Ht Hg]. unfold has_icon in Ht.
    unfold rewrite_contributed at 1. unfold updatePathProperties.
    destruct (rt_icon (ct_type t)); [|discriminate].
    rewrite (IH _ Hg Hb), <- app_assoc. reflexivity.
Qed.

(** X21: a contributed resource type without an icon makes the first call of
    [getResourceTypes] throw; the resource types pushed before it stay in
    the cache, and if there are any, every later call returns just these
    without reading the extensions again. *)
Theorem getResourceTypes_after_exception
        (before after : list Extension) (extensionPath : string)
        (good rest : list Contributed) (bad : Contributed)
        (platform : string) (later : list Extension) :
  forallb (fun e => forallb has_icon (contributed_by e)) before = true ->
  forallb has_icon good = true ->
  has_icon bad = false ->
  (all_rewritten path_join before
   ++ map (rewrite_contributed path_join extensionPath) good)%list <> [] ->
  getResourceTypes path_join []
    (before ++ mkExtension extensionPath (Some (good ++ bad :: rest)%list) :: after)%list
    platform false
  = ((all_rewritten path_join before
      ++ map (rewrite_contributed path_join extensionPath) good)%list, None)
  /\
  getResourceTypes path_join
    (all_rewritten path_join before
     ++ map (rewrite_contributed path_join extensionPath) good)%list
    later platform false
  = ((all_rewritten path_join before
      ++ map (rewrite_contributed path_join extensionPath) good)%list,
     Some (all_rewritten path_join before
           ++ map (rewrite_contributed path_join extensionPath) good)%list).
Proof.
  intros Hb Hg Hbad Hne. split.
  - unfold getResourceTypes. simpl.
    assert (G : forall cache,
               load_extensions path_join
                 (before ++ mkExtension extensionPath (Some (good ++ bad :: rest)%list)
                         :: after)%list cache
               = ((cache ++ all_rewritten path_join before
                   ++ map (rewrite_contributed path_join extensionPath) good)%list,
                  false)).
    { clear Hne. induction before as [|e es IH]; intros cache; simpl.
      - now rewrite (load_types_throws _ _ _ _ _ Hg Hbad).
      - simpl in Hb. apply andb_true_iff in Hb as [He Hb]. unfold contributed_by in *.
        destruct (resourceDeploymentTypes e) as [types|]; simpl.
        + rewrite (load_types_all _ _ _ He), (IH Hb), <- !app_assoc. reflexivity.
        + apply IH, Hb. }
    rewrite (G []). reflexivity.
  - unfold getResourceTypes.
    destruct (all_rewritten path_join before
              ++ map (rewrite_contributed path_join extensionPath) good)%list;
      [contradiction | reflexivity].
Qed.

End RegistryFacts.

Lemma getProvider_after_updatePathProperties_witness :
  getProvider
    (mkResourceType "sql" "SQL"
       (Some (mkIcon (SampleHost.join "/ext/a" "dark.svg")
                     (SampleHost.join "/ext/a" "light.svg"))) []
       (map (update_provider SampleHost.join "/ext/a")
          [mkProvider (Some "v=1") [] None None None
                      (Some (NbString "one.ipynb")) None None None None None;
           mkProvider None [] None None None None None
                      (Some "https://host") None None None])
       None)
    [mkSelected "v" "1"]
  = Some (mkProvider (Some "v=1") [] None None None
                     (Some (NbString "/ext/a/one.ipynb")) None None None None None).
Proof.
  exact (getProvider_after_updatePathProperties SampleHost.join
           (mkResourceType "sql" "SQL" (Some (mkIcon "dark.svg" "light.svg")) []
              [mkProvider (Some "v=1") [] None None None
                          (Some (NbString "one.ipynb")) None None None None None;
               mkProvider None [] None None None None None
                          (Some "https://host") None None None]
              None)
           _ "/ext/a" [mkSelected "v" "1"] eq_refl).
Defined.

Lemma getResourceTypes_loads_all_witness :
  getResourceTypes SampleHost.join [] sample_extensions "linux" false
  = (all_rewritten SampleHost.join sample_extensions,
     Some (all_rewritten SampleHost.join sample_extensions)).
Proof.
  apply (getResourceTypes_loads_all SampleHost.join sample_extensions "linux").
  reflexivity.
Defined.

(** An extension whose second resource type has no icon: the first call
    throws, the second returns the first resource type alone. *)
Lemma getResourceTypes_after_exception_witness :
  getResourceTypes SampleHost.join []
    [mkExtension "/ext/a"
       (Some [mkContributed
                (mkResourceType "sql" "SQL" (Some (mkIcon "d.svg" "l.svg")) [] [] None)
                (PlatformsString "*");
              mkContributed
                (mkResourceType "k8s" "Kubernetes" None [] [] None)
                (PlatformsString "*")])]
    "linux" false
  = ([mkContributed
        (mkResourceType "sql" "SQL" (Some (mkIcon "/ext/a/d.svg" "/ext/a/l.svg"))
                        [] [] None)
        (PlatformsString "*")], None)
  /\
  getResourceTypes SampleHost.join
    [mkContributed
       (mkResourceType "sql" "SQL" (Some (mkIcon "/ext/a/d.svg" "/ext/a/l.svg"))
                       [] [] None)
       (PlatformsString "*")]
    sample_extensions "linux" false
  = ([mkContributed
        (mkResourceType "sql" "SQL" (Some (mkIcon "/ext/a/d.svg" "/ext/a/l.svg"))
                        [] [] None)
        (PlatformsString "*")],
     Some [mkContributed
             (mkResourceType "sql" "SQL" (Some (mkIcon "/ext/a/d.svg" "/ext/a/l.svg"))
                             [] [] None)
             (PlatformsString "*")]).
Proof.
  apply (getResourceTypes_after_exception SampleHost.join [] [] "/ext/a"
           [mkContributed
              (mkResourceType "sql" "SQL" (Some (mkIcon "d.svg" "l.svg")) [] [] None)
              (PlatformsString "*")]
           []
           (mkContributed (mkResourceType "k8s" "Kubernetes" None [] [] None)
                          (PlatformsString "*"))
           "linux" sample_extensions).
  - reflexivity.
  - reflexivity.
  - reflexivity.
  - discriminate.
Defined.

(* ================================================================= *)
(** ** Subscriptions of an account *)

Lemma collect_subscriptions_inr (answers : list TenantAnswer)
      (acc subscriptions : list Subscription) :
  collect_subscriptions answers acc = inr subscriptions ->
  subscriptions = (acc ++ all_subscriptions answers)%list
  /\ forall e, ~ In (TenantThrows e) answers.
Proof.
  revert acc. induction answers as [|a answers IH]; intros acc; simpl.
  - intros [= <-]. rewrite app_nil_r. split; [reflexivity | intros e []].
  - destruct a as [e|r]; [discriminate|].
    intros H. apply IH in H as [-> Hno]. split.
    + destruct r; simpl; now rewrite <- app_assoc.
    + intros e [D|D]; [discriminate | exact (Hno e D)].
Qed.

Lemma collect_subscriptions_inl (answers : list TenantAnswer)
      (acc : list Subscription) (error : string) :
  collect_subscriptions answers acc = inl error ->
  In (TenantThrows error) answers.
Proof.
  revert acc. induction answers as [|a answers IH]; intros acc; simpl.
  - discriminate.
  - destruct a as [e|r].
    + intros [= ->]. now left.
    + intros H. right. exact (IH _ H).
Qed.

(** X22: [getSubscriptionInfo] fails, with the credential error that names
    the account, exactly when the token or the subscription service throws
    for one of the tenants; the subscriptions of the other tenants are then
    lost as well. *)
Theorem getSubscriptionInfo_fails (accountId : string) (answers : list TenantAnswer)
        (selectedSubscriptions : option (list Subscription)) :
  (exists e, In (TenantThrows e) answers)
  <-> getSubscriptionInfo accountId answers selectedSubscriptions
      = inl ("Failed to get credential for account " ++ accountId
             ++ ". Please refresh the account.").
Proof.
  unfold getSubscriptionInfo.
  destruct (collect_subscriptions answers []) as [e|subs] eqn:C.
  - split; [reflexivity|]. intros _. exists e.
    exact (collect_subscriptions_inl answers [] e C).
  - apply collect_subscriptions_inr in C as [_ Hno].
    split.
    + intros [e He]. destruct (Hno e He).
    + destruct (0 <? _)%nat; discriminate.
Qed.

(** X23: when [getSubscriptionInfo] succeeds, [total] counts the
    subscriptions of all tenants; without selected subscriptions all of
    them are returned and [selected] equals [total]; with selected
    subscriptions, those of the account whose id is selected are returned,
    and [selected] is the number of selected ids, whether or not they
    belong to the account. *)
Theorem getSubscriptionInfo_result (accountId : string) (answers : list TenantAnswer)
        (selectedSubscriptions : option (list Subscription))
        (info : SubscriptionInfo) :
  getSubscriptionInfo accountId answers selectedSubscriptions = inr info ->
  info_total info = List.length (all_subscriptions answers)
  /\ List.length (info_subscriptions info) <= info_total info
  /\ (selected_ids selectedSubscriptions = [] ->
      info_subscriptions info = all_subscriptions answers
      /\ info_selected info = info_total info)
  /\ (selected_ids selectedSubscriptions <> [] ->
      info_selected info = List.length (selected_ids selectedSubscriptions)
      /\ forall s, In s (info_subscriptions info)
                   <-> In s (all_subscriptions answers)
                       /\ In (sub_id s) (selected_ids selectedSubscriptions)).
Proof.
  unfold getSubscriptionInfo. fold (selected_ids selectedSubscriptions).
  destruct (collect_subscriptions answers []) as [e|subs] eqn:C; [discriminate|].
  apply collect_subscriptions_inr in C as [-> _]. simpl.
  destruct (selected_ids selectedSubscriptions) as [|i ids] eqn:S; simpl.
  - intros [= <-]. simpl. split; [reflexivity|]. split; [lia|].
    split; [intros _; split; reflexivity|]. intros N. contradiction.
  - intros [= <-]. simpl. split; [reflexivity|]. split; [apply filter_length_le|].
    split; [discriminate|]. intros _. split; [reflexivity|].
    intros s. rewrite filter_In. apply and_iff_compat_l.
    rewrite negb_true_iff. split.
    + intros H. destruct (in_dec string_dec (sub_id s) (i :: ids)) as [Hin|Hn];
        [exact Hin|].
      apply indexOf_minus_one in Hn. congruence.
    + intros Hin. apply not_true_is_false. intros E.
      apply indexOf_minus_one in E. contradiction.
Qed.

(** An account with two subscriptions and a selection of three ids, one of
    them of the account: one subscription is returned, and [selected] is 3
    of a [total] of 2. *)
Lemma getSubscriptionInfo_result_witness :
  3 = 3
  /\ forall s,
       In s [mkSubscription "s1" "One" "t"]
       <-> In s [mkSubscription "s1" "One" "t"; mkSubscription "s2" "Two" "t"]
           /\ In (sub_id s) ["s1"; "x"; "y"].
Proof.
  exact (proj2 (proj2 (proj2
           (getSubscriptionInfo_result "acct"
              [TenantReturns
                 (Some [mkSubscription "s1" "One" "t"; mkSubscription "s2" "Two" "t"]);
               TenantReturns None]
              (Some [mkSubscription "s1" "One" "t"; mkSubscription "x" "X" "u";
                     mkSubscription "y" "Y" "u"])
              (mkInfo [mkSubscription "s1" "One" "t"] 2 3)
              eq_refl)))
           ltac:(discriminate)).
Defined.

(** The label of that account once loading has ended, and while it loads. *)
Example updateLabel_counts :
  updateLabel "Account" "acct" false
    [TenantReturns (Some [mkSubscription "s1" "One" "t"; mkSubscription "s2" "Two" "t"])]
    (Some [mkSubscription "s1" "One" "t"; mkSubscription "x" "X" "u";
           mkSubscription "y" "Y" "u"])
  = inr "Account (3/2 subscriptions)"
  /\
  updateLabel "Account" "acct" true
    [TenantReturns (Some [mkSubscription "s1" "One" "t"])] None
  = inr "Account - Loading...".
Proof. split; reflexivity. Qed.
